(** * Tiered incentive calculation of the sales dashboard

    A shallow embedding of [calculateUserIncentive], [getUserName] and the
    lists built from them in [src/components/IncentiveOverview.tsx], and the
    properties of the calculation stated in the specification.

    The calculation is embedded twice.

    On exact numbers.  Input fields are rationals ([Q]); computed values are
    the finite numbers, [Infinity], [-Infinity] and [NaN], type [jsnum],
    and arithmetic on finite values is exact.  This embedding carries the
    statements about what is selected and in which shape and order: the
    null results, the applicable rule, the record without a rule, the
    current and next tier, the growth of the amount with the revenue, the
    order of tiers and accounts, the names and the lists.

    On binary64 numbers, module [B64].  Every number is a primitive float,
    IEEE 754 binary64 with round to nearest even, the numbers of
    JavaScript; sums round and overflow as the code's do.  This embedding
    carries the statements about the values computed: the commission rate,
    the qualifying revenue, the amount inside a band, the progress and the
    remaining amount. *)

From Stdlib Require Import QArith Qminmax Lqa Lia Floats.
From Stdlib Require Import List ListSet Bool String Permutation Sorted.
Import ListNotations.

Local Open Scope Q_scope.

(** ** JavaScript numbers *)

Inductive jsnum : Type :=
| Fin (q : Q)
| PInf
| NInf
| NaN.

(** Sign of a rational: [Lt] negative, [Eq] zero, [Gt] positive. *)
Definition Qsign (q : Q) : comparison := q ?= 0.

(** [a + b] *)
Definition jsadd (a b : jsnum) : jsnum :=
  match a, b with
  | NaN, _ | _, NaN => NaN
  | Fin x, Fin y => Fin (x + y)
  | PInf, NInf | NInf, PInf => NaN
  | PInf, _ | _, PInf => PInf
  | NInf, _ | _, NInf => NInf
  end.

(** [a - b] *)
Definition jssub (a b : jsnum) : jsnum :=
  match a, b with
  | NaN, _ | _, NaN => NaN
  | Fin x, Fin y => Fin (x - y)
  | PInf, PInf | NInf, NInf => NaN
  | PInf, _ | _, NInf => PInf
  | NInf, _ | _, PInf => NInf
  end.

(** An infinity multiplied or divided by something of sign [s]. *)
Definition signed_inf (positive : bool) (s : comparison) : jsnum :=
  match s with
  | Eq => NaN
  | Gt => if positive then PInf else NInf
  | Lt => if positive then NInf else PInf
  end.

(** [a * b] *)
Definition jsmul (a b : jsnum) : jsnum :=
  match a, b with
  | NaN, _ | _, NaN => NaN
  | Fin x, Fin y => Fin (x * y)
  | PInf, Fin y => signed_inf true (Qsign y)
  | NInf, Fin y => signed_inf false (Qsign y)
  | Fin x, PInf => signed_inf true (Qsign x)
  | Fin x, NInf => signed_inf false (Qsign x)
  | PInf, PInf | NInf, NInf => PInf
  | PInf, NInf | NInf, PInf => NInf
  end.

(** [a / b]: a finite number divided by zero is an infinity of its sign, and
    [0 / 0] is [NaN]. *)
Definition jsdiv (a b : jsnum) : jsnum :=
  match a, b with
  | NaN, _ | _, NaN => NaN
  | Fin x, Fin y =>
      if Qeq_bool y 0 then signed_inf true (Qsign x) else Fin (x / y)
  | Fin _, (PInf | NInf) => Fin 0
  | PInf, Fin y => if Qle_bool 0 y then PInf else NInf
  | NInf, Fin y => if Qle_bool 0 y then NInf else PInf
  | (PInf | NInf), (PInf | NInf) => NaN
  end.

(** [a <= b]; every comparison with [NaN] is false. *)
Definition jsle (a b : jsnum) : bool :=
  match a, b with
  | NaN, _ | _, NaN => false
  | Fin x, Fin y => Qle_bool x y
  | NInf, _ | _, PInf => true
  | PInf, _ | _, NInf => false
  end.

(** [a >= b] *)
Definition jsge (a b : jsnum) : bool := jsle b a.

(** [a < b] *)
Definition jslt (a b : jsnum) : bool :=
  match a, b with
  | NaN, _ | _, NaN => false
  | _, _ => negb (jsle b a)
  end.

(** [a > b] *)
Definition jsgt (a b : jsnum) : bool := jslt b a.

(** [a === b] on numbers *)
Definition js_strict_eq (a b : jsnum) : bool :=
  match a, b with
  | Fin x, Fin y => Qeq_bool x y
  | PInf, PInf | NInf, NInf => true
  | _, _ => false
  end.

(** [Math.min(a, b)] *)
Definition Math_min (a b : jsnum) : jsnum :=
  match a, b with
  | NaN, _ | _, NaN => NaN
  | _, _ => if jsle a b then a else b
  end.

(** [Math.max(a, b)] *)
Definition Math_max (a b : jsnum) : jsnum :=
  match a, b with
  | NaN, _ | _, NaN => NaN
  | _, _ => if jsle a b then b else a
  end.

(** Truthiness of a number: [0] and [NaN] are falsy. *)
Definition truthy (a : jsnum) : bool :=
  match a with
  | Fin x => negb (Qeq_bool x 0)
  | NaN => false
  | PInf | NInf => true
  end.

(** [v || d] where [v] is a number or [undefined] ([None]): [undefined] and
    falsy numbers give [d]. *)
Definition or_else (v : option jsnum) (d : jsnum) : jsnum :=
  match v with
  | Some x => if truthy x then x else d
  | None => d
  end.


(** ** Data model ([../types], fields as the component reads them) *)

Record Account : Type := mkAccount {
  acc_id : string;
  acc_user_id : string
}.

Record SalesData : Type := mkSalesData {
  account_id : string;
  total_purchases : Q;
  gross_commission : Q
}.

Record Tier : Type := mkTier {
  revenue_threshold : Q;
  incentive_rate : Q
}.

Record IncentiveRule : Type := mkIncentiveRule {
  rule_name : string;
  commission_rate_min : Q;
  commission_rate_max : Q;
  min_commission_threshold : Q;
  base_revenue_threshold : Q;
  is_active : bool;
  tiers : list Tier
}.

Record User : Type := mkUser {
  usr_id : string;
  usr_name : string;
  usr_role : string;
  managed_accounts : list string
}.

Record IncentiveCalculation : Type := mkIncentiveCalculation {
  user_id : string;
  user_name : string;
  total_revenue : jsnum;
  total_commission : jsnum;
  commission_rate : jsnum;
  applicable_rule : option IncentiveRule;
  current_tier : option Tier;
  next_tier : option Tier;
  incentive_amount : jsnum;
  progress_percentage : jsnum;
  remaining_to_next_tier : jsnum;
  managed_accounts_count : nat
}.

(** ** The component's functions *)

Section Component.

(** Props and state of the component that the functions close over. *)
Variable currentUser : User.
Variable allUsers : list User.

Definition getUserName (userId : string) : string :=
  if String.eqb userId (usr_id currentUser) then usr_name currentUser
  else
    match find (fun u => String.eqb (usr_id u) userId) allUsers with
    | Some user => usr_name user
    | None => ("User " ++ substring 0 8 userId)%string
    end.

(** [allSalesData.filter(data => userAccounts.some(acc => acc.id === data.account_id))] *)
Definition userSalesDataOf (userAccounts : list Account)
    (allSalesData : list SalesData) : list SalesData :=
  filter (fun data =>
            existsb (fun acc => String.eqb (acc_id acc) (account_id data))
                    userAccounts)
         allSalesData.

(** [rows.reduce((sum, data) => sum + data.<field>, 0)] *)
Definition sumOf (field : SalesData -> Q) (rows : list SalesData) : jsnum :=
  fold_left (fun sum data => jsadd sum (Fin (field data))) rows (Fin 0).

Definition commissionRateOf (totalRevenue totalCommission : jsnum) : jsnum :=
  if jsgt totalRevenue (Fin 0)
  then jsmul (jsdiv totalCommission totalRevenue) (Fin 100)
  else Fin 0.

(** The band test of the rule loop. *)
Definition inBand (commissionRate : jsnum) (rule : IncentiveRule) : bool :=
  jsge commissionRate (Fin (commission_rate_min rule))
  && (js_strict_eq (Fin (commission_rate_max rule)) (Fin 100)
      || jsle commissionRate (Fin (commission_rate_max rule))).

(** [for (const rule of applicableRules) { if (...) { bestRule = rule; break; } }] *)
Fixpoint findBestRule (commissionRate : jsnum)
    (applicableRules : list IncentiveRule) : option IncentiveRule :=
  match applicableRules with
  | [] => None
  | rule :: rest =>
      if inBand commissionRate rule then Some rule
      else findBestRule commissionRate rest
  end.

(** Commission of one account: its rows among the user's rows, summed. *)
Definition accountCommissionOf (userSalesData : list SalesData)
    (account : Account) : jsnum :=
  sumOf gross_commission
        (filter (fun data => String.eqb (account_id data) (acc_id account))
                userSalesData).

(** The [Set<string>] filled by [userAccounts.forEach]. *)
Definition qualifyingAccountIdsOf (bestRule : IncentiveRule)
    (userAccounts : list Account) (userSalesData : list SalesData)
    : list string :=
  fold_left
    (fun ids account =>
       if jsge (accountCommissionOf userSalesData account)
               (Fin (min_commission_threshold bestRule))
       then ListSet.set_add string_dec (acc_id account) ids
       else ids)
    userAccounts (ListSet.empty_set string).

Definition qualifyingRevenueOf (bestRule : IncentiveRule)
    (userAccounts : list Account) (userSalesData : list SalesData) : jsnum :=
  let qualifyingAccountIds :=
    qualifyingAccountIdsOf bestRule userAccounts userSalesData in
  sumOf total_purchases
        (filter (fun data =>
                   ListSet.set_mem string_dec (account_id data)
                                   qualifyingAccountIds)
                userSalesData).

(** The comparator [(a, b) => a.revenue_threshold - b.revenue_threshold]. *)
Definition compareTiers (a b : Tier) : jsnum :=
  jssub (Fin (revenue_threshold a)) (Fin (revenue_threshold b)).

(** [Array.prototype.sort] is a stable sort: a tier goes after the tiers the
    comparator puts before it and before the tiers that compare equal to it
    and came later in the input. *)
Fixpoint insertTier (x : Tier) (sorted : list Tier) : list Tier :=
  match sorted with
  | [] => [x]
  | y :: rest =>
      if jsgt (compareTiers x y) (Fin 0) then y :: insertTier x rest
      else x :: sorted
  end.

(** [[...bestRule.tiers].sort(compareTiers)] *)
Definition sortTiers (ts : list Tier) : list Tier :=
  fold_right insertTier [] ts.

(** The three variables the tier loop assigns. *)
Record LoopState : Type := mkLoopState {
  incentiveAmount : jsnum;
  currentTier : option Tier;
  nextTier : option Tier
}.

Definition thresholdOf (t : option Tier) : option jsnum :=
  option_map (fun tier => Fin (revenue_threshold tier)) t.

(** The loop over [sortedTiers], from index [i] on: [remaining] is
    [sortedTiers.slice(i)], so [sortedTiers[i + 1]] is the head of its tail.
    The two arms of the source's [i === 0 ? ... : ...] are the same
    expression and are kept as written. *)
Fixpoint tierLoop (qualifyingRevenue : jsnum) (i : nat)
    (remaining : list Tier) (st : LoopState) : LoopState :=
  match remaining with
  | [] => st
  | tier :: later =>
      if jsge qualifyingRevenue (Fin (revenue_threshold tier)) then
        let upper :=
          or_else (thresholdOf (hd_error later)) qualifyingRevenue in
        let tierRevenue :=
          if Nat.eqb i 0
          then jssub (Math_min qualifyingRevenue upper)
                     (Fin (revenue_threshold tier))
          else jssub (Math_min qualifyingRevenue upper)
                     (Fin (revenue_threshold tier)) in
        tierLoop qualifyingRevenue (S i) later
          {| incentiveAmount :=
               jsadd (incentiveAmount st)
                     (jsmul tierRevenue
                            (jsdiv (Fin (incentive_rate tier)) (Fin 100)));
             currentTier := Some tier;
             nextTier := nextTier st |}
      else
        {| incentiveAmount := incentiveAmount st;
           currentTier := currentTier st;
           nextTier := Some tier |}
  end.

Definition initialLoopState : LoopState :=
  {| incentiveAmount := Fin 0; currentTier := None; nextTier := None |}.

(** The loop as [calculateUserIncentive] runs it. *)
Definition walkTiers (bestRule : IncentiveRule) (qualifyingRevenue : jsnum)
    : LoopState :=
  tierLoop qualifyingRevenue 0 (sortTiers (tiers bestRule)) initialLoopState.

(** [(progressPercentage, remainingToNextTier)] *)
Definition progressOf (bestRule : IncentiveRule) (qualifyingRevenue : jsnum)
    (st : LoopState) : jsnum * jsnum :=
  match nextTier st with
  | Some next =>
      let currentThreshold :=
        or_else (thresholdOf (currentTier st))
                (Fin (base_revenue_threshold bestRule)) in
      let nextThreshold := Fin (revenue_threshold next) in
      let progress := jssub qualifyingRevenue currentThreshold in
      let totalNeeded := jssub nextThreshold currentThreshold in
      (Math_min (jsmul (jsdiv progress totalNeeded) (Fin 100)) (Fin 100),
       Math_max (jssub nextThreshold qualifyingRevenue) (Fin 0))
  | None =>
      match currentTier st with
      | Some _ => (Fin 100, Fin 0)
      | None => (Fin 0, Fin 0)
      end
  end.

Definition calculateUserIncentive (userId : string)
    (userAccounts : list Account) (allSalesData : list SalesData)
    (rules : list IncentiveRule) : option IncentiveCalculation :=
  if Nat.eqb (List.length userAccounts) 0 then None else
  let applicableRules := filter is_active rules in
  if Nat.eqb (List.length applicableRules) 0 then None else
  let userSalesData := userSalesDataOf userAccounts allSalesData in
  let totalRevenue := sumOf total_purchases userSalesData in
  let totalCommission := sumOf gross_commission userSalesData in
  let commissionRate := commissionRateOf totalRevenue totalCommission in
  match findBestRule commissionRate applicableRules with
  | None =>
      Some {| user_id := userId;
              user_name := getUserName userId;
              total_revenue := totalRevenue;
              total_commission := totalCommission;
              commission_rate := commissionRate;
              applicable_rule := None;
              current_tier := None;
              next_tier := None;
              incentive_amount := Fin 0;
              progress_percentage := Fin 0;
              remaining_to_next_tier := Fin 0;
              managed_accounts_count := List.length userAccounts |}
  | Some bestRule =>
      let qualifyingRevenue :=
        qualifyingRevenueOf bestRule userAccounts userSalesData in
      let st := walkTiers bestRule qualifyingRevenue in
      let '(progressPercentage, remainingToNextTier) :=
        progressOf bestRule qualifyingRevenue st in
      Some {| user_id := userId;
              user_name := getUserName userId;
              total_revenue := totalRevenue;
              total_commission := totalCommission;
              commission_rate := commissionRate;
              applicable_rule := Some bestRule;
              current_tier := currentTier st;
              next_tier := nextTier st;
              incentive_amount := incentiveAmount st;
              progress_percentage := progressPercentage;
              remaining_to_next_tier := remainingToNextTier;
              managed_accounts_count := List.length userAccounts |}
  end.

End Component.

(** ** The lists the component shows *)

(** [Array.prototype.sort(compareFn)]: a stable sort; an element goes after
    the elements the comparator puts before it and before the elements that
    compare equal to it and came later.  A comparator value that is not
    positive, [NaN] included, leaves the earlier element first. *)
Section ArraySort.

Context {A : Type}.
Variable compareFn : A -> A -> jsnum.

Fixpoint arrayInsert (x : A) (sorted : list A) : list A :=
  match sorted with
  | [] => [x]
  | y :: rest =>
      if jsgt (compareFn x y) (Fin 0) then y :: arrayInsert x rest
      else x :: sorted
  end.

Definition arraySort (l : list A) : list A := fold_right arrayInsert [] l.

End ArraySort.

(** The values of the [sortBy], [sortOrder] and [filterBy] states. *)
Module SortBy.
Inductive t : Type := incentive | revenue | commission | rate.
End SortBy.

Module SortOrder.
Inductive t : Type := asc | desc.
End SortOrder.

Module FilterBy.
Inductive t : Type := all | earning | not_earning.
End FilterBy.

Section Lists.

Variable currentUser : User.
Variable allUsers : list User.

(** [[...new Set(accounts.map(acc => acc.user_id).filter(Boolean))]]: the
    user ids that are not falsy (an account without a user has the empty
    id), each once, in the order of their first occurrence. *)
Definition userIdsOf (accounts : list Account) : list string :=
  fold_left (fun ids userId => set_add string_dec userId ids)
            (filter (fun userId => negb (String.eqb userId ""))
                    (map acc_user_id accounts))
            (empty_set string).

(** The body of [userIds.forEach]: the calculation of one user is pushed
    when it is not null. *)
Definition pushUser (accounts : list Account) (salesData : list SalesData)
    (activeRules : list IncentiveRule)
    (userCalculations : list IncentiveCalculation) (userId : string)
    : list IncentiveCalculation :=
  let userAccounts :=
    filter (fun acc => String.eqb (acc_user_id acc) userId) accounts in
  match calculateUserIncentive currentUser allUsers userId userAccounts
                               salesData activeRules with
  | Some calculation => userCalculations ++ [calculation]
  | None => userCalculations
  end.

(** The comparator [(a, b) => b.incentive_amount - a.incentive_amount]. *)
Definition byIncentiveDesc (a b : IncentiveCalculation) : jsnum :=
  jssub (incentive_amount b) (incentive_amount a).

Definition incentiveCalculations (accounts : list Account)
    (salesData : list SalesData) (incentiveRules : list IncentiveRule)
    : list IncentiveCalculation :=
  let activeRules := filter is_active incentiveRules in
  if Nat.eqb (List.length activeRules) 0 then [] else
  let userCalculations :=
    if String.eqb (usr_role currentUser) "superadmin" then
      let userIds := userIdsOf accounts in
      fold_left (pushUser accounts salesData activeRules) userIds []
    else
      let userAccounts :=
        filter (fun acc =>
                  existsb (fun id => String.eqb id (acc_id acc))
                          (managed_accounts currentUser))
               accounts in
      match calculateUserIncentive currentUser allUsers (usr_id currentUser)
                                   userAccounts salesData activeRules with
      | Some calculation => [calculation]
      | None => []
      end in
  arraySort byIncentiveDesc userCalculations.

End Lists.

(** The value the [switch (sortBy)] selects. *)
Definition sortValue (sortBy : SortBy.t) (c : IncentiveCalculation) : jsnum :=
  match sortBy with
  | SortBy.incentive => incentive_amount c
  | SortBy.revenue => total_revenue c
  | SortBy.commission => total_commission c
  | SortBy.rate => commission_rate c
  end.

(** The comparator of the display sort. *)
Definition displayCompare (sortBy : SortBy.t) (sortOrder : SortOrder.t)
    (a b : IncentiveCalculation) : jsnum :=
  let aValue := sortValue sortBy a in
  let bValue := sortValue sortBy b in
  match sortOrder with
  | SortOrder.desc => jssub bValue aValue
  | SortOrder.asc => jssub aValue bValue
  end.

Definition applyFilter (filterBy : FilterBy.t)
    (calculations : list IncentiveCalculation) : list IncentiveCalculation :=
  match filterBy with
  | FilterBy.earning =>
      filter (fun calc => jsgt (incentive_amount calc) (Fin 0)) calculations
  | FilterBy.not_earning =>
      filter (fun calc => js_strict_eq (incentive_amount calc) (Fin 0))
             calculations
  | FilterBy.all => calculations
  end.

Definition filteredAndSortedCalculations (filterBy : FilterBy.t)
    (sortBy : SortBy.t) (sortOrder : SortOrder.t)
    (incentiveCalculations : list IncentiveCalculation)
    : list IncentiveCalculation :=
  let filtered := applyFilter filterBy incentiveCalculations in
  arraySort (displayCompare sortBy sortOrder) filtered.

(** ** Definitions used by the statements *)

(** The rational a [reduce] over finite fields computes. *)
Definition Qsum (field : SalesData -> Q) (rows : list SalesData) : Q :=
  fold_left (fun sum data => sum + field data) rows 0.

(** What the rate is as a rational: the quotient when the revenue is
    positive, zero otherwise. *)
Definition rateQ (totalRevenue totalCommission : Q) : Q :=
  if Qle_bool totalRevenue 0 then 0
  else totalCommission / totalRevenue * 100.



(** Everything [calculateUserIncentive] computes before the tier walk. *)
Record Totals : Type := mkTotals {
  userSalesData : list SalesData;
  totalRevenue : Q;
  totalCommission : Q;
  commissionRate : Q
}.

Definition totalsOf (userAccounts : list Account)
    (allSalesData : list SalesData) : Totals :=
  let rows := userSalesDataOf userAccounts allSalesData in
  {| userSalesData := rows;
     totalRevenue := Qsum total_purchases rows;
     totalCommission := Qsum gross_commission rows;
     commissionRate :=
       rateQ (Qsum total_purchases rows) (Qsum gross_commission rows) |}.

(** The result when no rule applies. *)
Definition noRuleCalculation (userName userId : string) (t : Totals)
    (count : nat) : IncentiveCalculation :=
  {| user_id := userId;
     user_name := userName;
     total_revenue := Fin (totalRevenue t);
     total_commission := Fin (totalCommission t);
     commission_rate := Fin (commissionRate t);
     applicable_rule := None;
     current_tier := None;
     next_tier := None;
     incentive_amount := Fin 0;
     progress_percentage := Fin 0;
     remaining_to_next_tier := Fin 0;
     managed_accounts_count := count |}.

(** The result under rule [bestRule]. *)
Definition ruleCalculation (userName userId : string) (t : Totals)
    (count : nat) (bestRule : IncentiveRule) (userAccounts : list Account)
    : IncentiveCalculation :=
  let qualifyingRevenue :=
    qualifyingRevenueOf bestRule userAccounts (userSalesData t) in
  let st := walkTiers bestRule qualifyingRevenue in
  {| user_id := userId;
     user_name := userName;
     total_revenue := Fin (totalRevenue t);
     total_commission := Fin (totalCommission t);
     commission_rate := Fin (commissionRate t);
     applicable_rule := Some bestRule;
     current_tier := currentTier st;
     next_tier := nextTier st;
     incentive_amount := incentiveAmount st;
     progress_percentage := fst (progressOf bestRule qualifyingRevenue st);
     remaining_to_next_tier := snd (progressOf bestRule qualifyingRevenue st);
     managed_accounts_count := count |}.

(** Commission of the account [id] over its own rows of the sales data. *)
Definition ownCommission (allSalesData : list SalesData) (id : string) : Q :=
  Qsum gross_commission
       (filter (fun data => String.eqb (account_id data) id) allSalesData).

Definition isUserAccount (userAccounts : list Account) (id : string) : bool :=
  existsb (fun acc => String.eqb (acc_id acc) id) userAccounts.

(** The account [id] of the user qualifies under [rule]: its own commission
    reaches the rule's minimum. *)
Definition qualifies (rule : IncentiveRule) (userAccounts : list Account)
    (allSalesData : list SalesData) (id : string) : bool :=
  isUserAccount userAccounts id
  && Qle_bool (min_commission_threshold rule) (ownCommission allSalesData id).

Definition threshold_le (a b : Tier) : Prop :=
  revenue_threshold a <= revenue_threshold b.

Definition threshold_lt (a b : Tier) : Prop :=
  revenue_threshold a < revenue_threshold b.

(** No two tiers of the list have the same threshold. *)
Definition distinct_thresholds (ts : list Tier) : Prop :=
  ForallOrdPairs
    (fun a b => ~ revenue_threshold a == revenue_threshold b) ts.

(** [Math.min] and [Math.max] of two finite numbers. *)
Definition minQ (a b : Q) : Q := if Qle_bool a b then a else b.
Definition maxQ (a b : Q) : Q := if Qle_bool a b then b else a.

(** [sortedTiers[i + 1]?.revenue_threshold || qualifyingRevenue], [later]
    being the tiers after index [i]. *)
Definition capQ (q : Q) (later : list Tier) : Q :=
  match later with
  | next :: _ =>
      if Qeq_bool (revenue_threshold next) 0 then q
      else revenue_threshold next
  | [] => q
  end.

(** What one iteration adds to [incentiveAmount]. *)
Definition bandQ (q : Q) (tier : Tier) (later : list Tier) : Q :=
  (minQ q (capQ q later) - revenue_threshold tier)
  * (incentive_rate tier / 100).

(** The band of [tier]: from its threshold to the next tier's threshold,
    capped at the revenue, at the tier's rate. *)
Definition spec_band (q : Q) (tier : Tier) (later : list Tier) : Q :=
  (Qmin q (match later with
           | next :: _ => revenue_threshold next
           | [] => q
           end)
   - revenue_threshold tier)
  * (incentive_rate tier / 100).

(** Walk the sorted tiers, accrue the band of each tier at or below the
    revenue, stop at the first tier above it. *)
Fixpoint spec_accrual (q : Q) (sorted : list Tier) : Q :=
  match sorted with
  | [] => 0
  | tier :: later =>
      if Qle_bool (revenue_threshold tier) q
      then spec_band q tier later + spec_accrual q later
      else 0
  end.

Definition nonzero_threshold (tier : Tier) : Prop :=
  ~ revenue_threshold tier == 0.

(** The rule with another list of tiers. *)
Definition with_tiers (rule : IncentiveRule) (ts : list Tier) : IncentiveRule :=
  {| rule_name := rule_name rule;
     commission_rate_min := commission_rate_min rule;
     commission_rate_max := commission_rate_max rule;
     min_commission_threshold := min_commission_threshold rule;
     base_revenue_threshold := base_revenue_threshold rule;
     is_active := is_active rule;
     tiers := ts |}.

(** [b] is [a], or [a] with its tiers, of pairwise distinct thresholds, in
    another order. *)
Definition tiers_reordered (a b : IncentiveRule) : Prop :=
  a = b
  \/ (b = with_tiers a (tiers b)
      /\ Permutation (tiers a) (tiers b)
      /\ distinct_thresholds (tiers a)).

Definition option_tiers_reordered (a b : option IncentiveRule) : Prop :=
  match a, b with
  | Some x, Some y => tiers_reordered x y
  | None, None => True
  | _, _ => False
  end.

(** The calculation with another value in [applicable_rule]. *)
Definition with_applicable_rule (c : IncentiveCalculation)
    (rule : option IncentiveRule) : IncentiveCalculation :=
  {| user_id := user_id c;
     user_name := user_name c;
     total_revenue := total_revenue c;
     total_commission := total_commission c;
     commission_rate := commission_rate c;
     applicable_rule := rule;
     current_tier := current_tier c;
     next_tier := next_tier c;
     incentive_amount := incentive_amount c;
     progress_percentage := progress_percentage c;
     remaining_to_next_tier := remaining_to_next_tier c;
     managed_accounts_count := managed_accounts_count c |}.

(** ** Concrete runs *)

Module Runs.

Local Open Scope string_scope.

Definition ann : User := mkUser "u1" "Ann" "user" ["a1"].
Definition accounts : list Account := [mkAccount "a1" "u1"].

Definition run (sales : list SalesData) (rules : list IncentiveRule)
    : option IncentiveCalculation :=
  calculateUserIncentive ann [] "u1" accounts sales rules.

(** The scenario of the specification: tiers (0, 5%) and (1_000_000, 10%),
    one qualifying account with revenue 1_500_000. *)
Definition twoTiers : IncentiveRule :=
  mkIncentiveRule "two tiers" 0 100 10 0 true
                  [mkTier 0 5; mkTier 1000000 10].


(** A tier at threshold 0 that is not the first tier. *)
Definition zeroSecond : IncentiveRule :=
  mkIncentiveRule "zero second" 0 100 10 0 true
                  [mkTier (-100) 5; mkTier 0 10].

(** Two tiers above 0. *)
Definition aboveZero : IncentiveRule :=
  mkIncentiveRule "above zero" 0 100 10 0 true
                  [mkTier 5000 10; mkTier 1000 5].

(** The same rule, its tiers in the other order. *)
Definition aboveZeroReordered : IncentiveRule :=
  with_tiers aboveZero [mkTier 1000 5; mkTier 5000 10].

End Runs.

(** ** Definitions used by the further properties *)


(** [c] is a result of [calculateUserIncentive] on the sales data and the
    rules. *)
Definition produced_by (currentUser : User) (allUsers : list User)
    (salesData : list SalesData) (rules : list IncentiveRule)
    (c : IncentiveCalculation) : Prop :=
  exists userId userAccounts,
    calculateUserIncentive currentUser allUsers userId userAccounts
                           salesData rules = Some c.

(** The accounts of one user. *)
Definition accountsOf (accounts : list Account) (userId : string)
    : list Account :=
  filter (fun acc => String.eqb (acc_user_id acc) userId) accounts.

(** The accounts a regular user manages. *)
Definition managedBy (user : User) (accounts : list Account) : list Account :=
  filter (fun acc =>
            existsb (fun id => String.eqb id (acc_id acc))
                    (managed_accounts user))
         accounts.

(** Descending order of finite incentive amounts. *)
Definition amount_desc (a b : IncentiveCalculation) : Prop :=
  exists x y,
    incentive_amount a = Fin x /\ incentive_amount b = Fin y /\ y <= x.

(** The calculation of user [user_id c] over that user's accounts is [c]. *)
Definition calculation_of (currentUser : User) (allUsers : list User)
    (accounts : list Account) (salesData : list SalesData)
    (activeRules : list IncentiveRule) (c : IncentiveCalculation) : Prop :=
  calculateUserIncentive currentUser allUsers (user_id c)
                         (accountsOf accounts (user_id c)) salesData
                         activeRules = Some c.

(** The order the display sort asks for, on finite values. *)
Definition display_order (sortBy : SortBy.t) (sortOrder : SortOrder.t)
    (a b : IncentiveCalculation) : Prop :=
  exists x y,
    sortValue sortBy a = Fin x /\ sortValue sortBy b = Fin y
    /\ match sortOrder with
       | SortOrder.asc => x <= y
       | SortOrder.desc => y <= x
       end.

(** The entries whose sort value is [v]. *)
Definition with_value (sortBy : SortBy.t) (v : Q)
    (l : list IncentiveCalculation) : list IncentiveCalculation :=
  filter (fun c => js_strict_eq (sortValue sortBy c) (Fin v)) l.

(** The incentive amount, or the sort value, is a finite number. *)
Definition finite_amount (c : IncentiveCalculation) : Prop :=
  exists a, incentive_amount c = Fin a.

Definition finite_key (sortBy : SortBy.t) (c : IncentiveCalculation) : Prop :=
  exists x, sortValue sortBy c = Fin x.

(** ** Concrete team *)

Module Team.

Local Open Scope string_scope.

Definition boss : User := mkUser "root" "Root" "superadmin" [].

(** Two users with accounts, one account without a user. *)
Definition accounts : list Account :=
  [mkAccount "a1" "u1"; mkAccount "a2" "u2"; mkAccount "a3" "u1";
   mkAccount "a4" ""].

Definition sales : list SalesData :=
  [mkSalesData "a1" 1500000 150000; mkSalesData "a2" 400000 20000;
   mkSalesData "a3" 500000 50000; mkSalesData "a4" 900000 90000;
   mkSalesData "a9" 100 10].

Definition retired : IncentiveRule :=
  mkIncentiveRule "retired" 0 100 0 0 false [mkTier 0 50].

Definition rules : list IncentiveRule := [retired; Runs.twoTiers].

Definition listed : list IncentiveCalculation :=
  incentiveCalculations boss [] accounts sales rules.

End Team.

(** ** The calculation in binary64

    [calculateUserIncentive] once more, on the numbers the code runs on:
    Rocq's primitive floats are IEEE 754 binary64 with round to nearest
    even, as JavaScript's numbers are.  The statements about the values the
    calculation computes are made on this model. *)

Module B64.

Local Open Scope float_scope.

Record SalesData : Type := mkSalesData {
  account_id : string;
  total_purchases : float;
  gross_commission : float
}.

Record Tier : Type := mkTier {
  revenue_threshold : float;
  incentive_rate : float
}.

Record IncentiveRule : Type := mkIncentiveRule {
  rule_name : string;
  commission_rate_min : float;
  commission_rate_max : float;
  min_commission_threshold : float;
  base_revenue_threshold : float;
  is_active : bool;
  tiers : list Tier
}.

Record IncentiveCalculation : Type := mkIncentiveCalculation {
  user_id : string;
  user_name : string;
  total_revenue : float;
  total_commission : float;
  commission_rate : float;
  applicable_rule : option IncentiveRule;
  current_tier : option Tier;
  next_tier : option Tier;
  incentive_amount : float;
  progress_percentage : float;
  remaining_to_next_tier : float;
  managed_accounts_count : nat
}.

(** Truthiness of a number: [0], [-0] and [NaN] are falsy. *)
Definition truthy (x : float) : bool := negb (is_zero x || is_nan x).

(** [v || d] where [v] is a number or [undefined] ([None]). *)
Definition or_else (v : option float) (d : float) : float :=
  match v with
  | Some x => if truthy x then x else d
  | None => d
  end.

(** [Math.min(a, b)]: [NaN] if either is; of two equal numbers the one
    with the sign bit, so that [-0] is below [0]. *)
Definition Math_min (a b : float) : float :=
  if is_nan a || is_nan b then nan
  else if b <? a then b
  else if a <? b then a
  else if get_sign a then a else b.

(** [Math.max(a, b)]: [NaN] if either is; [0] is above [-0]. *)
Definition Math_max (a b : float) : float :=
  if is_nan a || is_nan b then nan
  else if a <? b then b
  else if b <? a then a
  else if get_sign a then b else a.

Section Component.

Variable currentUser : User.
Variable allUsers : list User.

Definition userSalesDataOf (userAccounts : list Account)
    (allSalesData : list SalesData) : list SalesData :=
  filter (fun data =>
            existsb (fun acc => String.eqb (acc_id acc) (account_id data))
                    userAccounts)
         allSalesData.

(** [rows.reduce((sum, data) => sum + data.<field>, 0)] *)
Definition sumOf (field : SalesData -> float) (rows : list SalesData) : float :=
  fold_left (fun sum data => sum + field data) rows 0.

Definition commissionRateOf (totalRevenue totalCommission : float) : float :=
  if 0 <? totalRevenue then totalCommission / totalRevenue * 100 else 0.

Definition inBand (commissionRate : float) (rule : IncentiveRule) : bool :=
  (commission_rate_min rule <=? commissionRate)
  && ((commission_rate_max rule =? 100)
      || (commissionRate <=? commission_rate_max rule)).

Fixpoint findBestRule (commissionRate : float)
    (applicableRules : list IncentiveRule) : option IncentiveRule :=
  match applicableRules with
  | [] => None
  | rule :: rest =>
      if inBand commissionRate rule then Some rule
      else findBestRule commissionRate rest
  end.

Definition accountCommissionOf (userSalesData : list SalesData)
    (account : Account) : float :=
  sumOf gross_commission
        (filter (fun data => String.eqb (account_id data) (acc_id account))
                userSalesData).

Definition qualifyingAccountIdsOf (bestRule : IncentiveRule)
    (userAccounts : list Account) (userSalesData : list SalesData)
    : list string :=
  fold_left
    (fun ids account =>
       if min_commission_threshold bestRule
          <=? accountCommissionOf userSalesData account
       then ListSet.set_add string_dec (acc_id account) ids
       else ids)
    userAccounts (ListSet.empty_set string).

Definition qualifyingRevenueOf (bestRule : IncentiveRule)
    (userAccounts : list Account) (userSalesData : list SalesData) : float :=
  let qualifyingAccountIds :=
    qualifyingAccountIdsOf bestRule userAccounts userSalesData in
  sumOf total_purchases
        (filter (fun data =>
                   ListSet.set_mem string_dec (account_id data)
                                   qualifyingAccountIds)
                userSalesData).

(** The comparator [(a, b) => a.revenue_threshold - b.revenue_threshold]. *)
Definition compareTiers (a b : Tier) : float :=
  revenue_threshold a - revenue_threshold b.

(** The stable sort, as [insertTier] above: an element moves behind the
    elements for which the comparator is positive. *)
Fixpoint insertTier (x : Tier) (sorted : list Tier) : list Tier :=
  match sorted with
  | [] => [x]
  | y :: rest =>
      if 0 <? compareTiers x y then y :: insertTier x rest
      else x :: sorted
  end.

Definition sortTiers (ts : list Tier) : list Tier :=
  fold_right insertTier [] ts.

Record LoopState : Type := mkLoopState {
  incentiveAmount : float;
  currentTier : option Tier;
  nextTier : option Tier
}.

Definition thresholdOf (t : option Tier) : option float :=
  option_map revenue_threshold t.

(** The loop over [sortedTiers] from index [i] on, [remaining] being
    [sortedTiers.slice(i)]; both arms of [i === 0 ? ... : ...] as written. *)
Fixpoint tierLoop (qualifyingRevenue : float) (i : nat)
    (remaining : list Tier) (st : LoopState) : LoopState :=
  match remaining with
  | [] => st
  | tier :: later =>
      if revenue_threshold tier <=? qualifyingRevenue then
        let upper :=
          or_else (thresholdOf (hd_error later)) qualifyingRevenue in
        let tierRevenue :=
          if Nat.eqb i 0
          then Math_min qualifyingRevenue upper - revenue_threshold tier
          else Math_min qualifyingRevenue upper - revenue_threshold tier in
        tierLoop qualifyingRevenue (S i) later
          {| incentiveAmount :=
               incentiveAmount st + tierRevenue * (incentive_rate tier / 100);
             currentTier := Some tier;
             nextTier := nextTier st |}
      else
        {| incentiveAmount := incentiveAmount st;
           currentTier := currentTier st;
           nextTier := Some tier |}
  end.

Definition initialLoopState : LoopState :=
  {| incentiveAmount := 0; currentTier := None; nextTier := None |}.

Definition walkTiers (bestRule : IncentiveRule) (qualifyingRevenue : float)
    : LoopState :=
  tierLoop qualifyingRevenue 0 (sortTiers (tiers bestRule)) initialLoopState.

(** [(progressPercentage, remainingToNextTier)] *)
Definition progressOf (bestRule : IncentiveRule) (qualifyingRevenue : float)
    (st : LoopState) : float * float :=
  match nextTier st with
  | Some next =>
      let currentThreshold :=
        or_else (thresholdOf (currentTier st))
                (base_revenue_threshold bestRule) in
      let nextThreshold := revenue_threshold next in
      let progress := qualifyingRevenue - currentThreshold in
      let totalNeeded := nextThreshold - currentThreshold in
      (Math_min (progress / totalNeeded * 100) 100,
       Math_max (nextThreshold - qualifyingRevenue) 0)
  | None =>
      match currentTier st with
      | Some _ => (100, 0)
      | None => (0, 0)
      end
  end.

Definition calculateUserIncentive (userId : string)
    (userAccounts : list Account) (allSalesData : list SalesData)
    (rules : list IncentiveRule) : option IncentiveCalculation :=
  if Nat.eqb (List.length userAccounts) 0 then None else
  let applicableRules := filter is_active rules in
  if Nat.eqb (List.length applicableRules) 0 then None else
  let userSalesData := userSalesDataOf userAccounts allSalesData in
  let totalRevenue := sumOf total_purchases userSalesData in
  let totalCommission := sumOf gross_commission userSalesData in
  let commissionRate := commissionRateOf totalRevenue totalCommission in
  match findBestRule commissionRate applicableRules with
  | None =>
      Some {| user_id := userId;
              user_name := getUserName currentUser allUsers userId;
              total_revenue := totalRevenue;
              total_commission := totalCommission;
              commission_rate := commissionRate;
              applicable_rule := None;
              current_tier := None;
              next_tier := None;
              incentive_amount := 0;
              progress_percentage := 0;
              remaining_to_next_tier := 0;
              managed_accounts_count := List.length userAccounts |}
  | Some bestRule =>
      let qualifyingRevenue :=
        qualifyingRevenueOf bestRule userAccounts userSalesData in
      let st := walkTiers bestRule qualifyingRevenue in
      let '(progressPercentage, remainingToNextTier) :=
        progressOf bestRule qualifyingRevenue st in
      Some {| user_id := userId;
              user_name := getUserName currentUser allUsers userId;
              total_revenue := totalRevenue;
              total_commission := totalCommission;
              commission_rate := commissionRate;
              applicable_rule := Some bestRule;
              current_tier := currentTier st;
              next_tier := nextTier st;
              incentive_amount := incentiveAmount st;
              progress_percentage := progressPercentage;
              remaining_to_next_tier := remainingToNextTier;
              managed_accounts_count := List.length userAccounts |}
  end.

End Component.

(** Definitions for the statements about the binary64 calculation. *)

(** Commission of the account [id]: the [reduce] over its own rows, in the
    order of the sales data. *)
Definition ownCommission (allSalesData : list SalesData) (id : string)
    : float :=
  sumOf gross_commission
        (filter (fun data => String.eqb (account_id data) id) allSalesData).

(** The account [id] of the user qualifies under [rule]. *)
Definition qualifies (rule : IncentiveRule) (userAccounts : list Account)
    (allSalesData : list SalesData) (id : string) : bool :=
  isUserAccount userAccounts id
  && (min_commission_threshold rule <=? ownCommission allSalesData id).

(** The revenue of the rows of qualifying accounts. *)
Definition qualifyingRevenue (rule : IncentiveRule)
    (userAccounts : list Account) (allSalesData : list SalesData) : float :=
  sumOf total_purchases
        (filter (fun data =>
                   qualifies rule userAccounts allSalesData (account_id data))
                allSalesData).



(** The result once both guards are passed. *)
Definition resultOf (currentUser : User) (allUsers : list User)
    (userId : string) (userAccounts : list Account)
    (allSalesData : list SalesData) (rules : list IncentiveRule)
    : IncentiveCalculation :=
  let rows := userSalesDataOf userAccounts allSalesData in
  let totalRevenue := sumOf total_purchases rows in
  let totalCommission := sumOf gross_commission rows in
  let commissionRate := commissionRateOf totalRevenue totalCommission in
  match findBestRule commissionRate (filter is_active rules) with
  | None =>
      {| user_id := userId;
         user_name := getUserName currentUser allUsers userId;
         total_revenue := totalRevenue;
         total_commission := totalCommission;
         commission_rate := commissionRate;
         applicable_rule := None;
         current_tier := None;
         next_tier := None;
         incentive_amount := 0;
         progress_percentage := 0;
         remaining_to_next_tier := 0;
         managed_accounts_count := List.length userAccounts |}
  | Some bestRule =>
      let q := qualifyingRevenueOf bestRule userAccounts rows in
      let st := walkTiers bestRule q in
      {| user_id := userId;
         user_name := getUserName currentUser allUsers userId;
         total_revenue := totalRevenue;
         total_commission := totalCommission;
         commission_rate := commissionRate;
         applicable_rule := Some bestRule;
         current_tier := currentTier st;
         next_tier := nextTier st;
         incentive_amount := incentiveAmount st;
         progress_percentage := fst (progressOf bestRule q st);
         remaining_to_next_tier := snd (progressOf bestRule q st);
         managed_accounts_count := List.length userAccounts |}
  end.



(** Concrete runs. *)
Definition run (sales : list SalesData) (rules : list IncentiveRule)
    : option IncentiveCalculation :=
  calculateUserIncentive Runs.ann [] "u1" Runs.accounts sales rules.

Definition twoTiers : IncentiveRule :=
  mkIncentiveRule "two tiers" 0 100 10 0 true
                  [mkTier 0 5; mkTier 1000000 10].

Definition aboveZero : IncentiveRule :=
  mkIncentiveRule "above zero" 0 100 10 0 true
                  [mkTier 5000 10; mkTier 1000 5].









(** The largest binary64 number. *)
Definition huge : float := 0x1.fffffffffffffp1023.




End B64.

(** ** Keys that order the binary64 numbers *)

Module FloatOrder.

Local Open Scope Z_scope.





End FloatOrder.

(** * Properties *)

(** ** Sums of input fields are finite *)

Lemma fold_jsadd_fin (field : SalesData -> Q) (rows : list SalesData) (a : Q) :
  fold_left (fun sum data => jsadd sum (Fin (field data))) rows (Fin a)
  = Fin (fold_left (fun sum data => sum + field data) rows a).
Proof.
  revert a. induction rows as [|d rows IH]; intros a; simpl.
  - reflexivity.
  - apply IH.
Qed.

Lemma sumOf_fin (field : SalesData -> Q) (rows : list SalesData) :
  sumOf field rows = Fin (Qsum field rows).
Proof. apply fold_jsadd_fin. Qed.

(** ** Comparisons of finite numbers *)

Lemma jsge_fin (x y : Q) : jsge (Fin x) (Fin y) = true <-> y <= x.
Proof. unfold jsge; simpl. apply Qle_bool_iff. Qed.

Lemma jsge_fin_false (x y : Q) : jsge (Fin x) (Fin y) = false <-> x < y.
Proof.
  unfold jsge; simpl. split; intros H.
  - apply Qnot_le_lt. intros Hle. apply Qle_bool_iff in Hle. congruence.
  - destruct (Qle_bool y x) eqn:E; [|reflexivity].
    apply Qle_bool_iff in E. exfalso. apply (Qlt_not_le _ _ H E).
Qed.

Lemma jsle_fin (x y : Q) : jsle (Fin x) (Fin y) = true <-> x <= y.
Proof. simpl. apply Qle_bool_iff. Qed.

Lemma jsgt_fin (x y : Q) : jsgt (Fin x) (Fin y) = true <-> y < x.
Proof.
  unfold jsgt, jslt. rewrite negb_true_iff. apply (jsge_fin_false y x).
Qed.

Lemma jsgt_fin_false (x y : Q) : jsgt (Fin x) (Fin y) = false <-> x <= y.
Proof.
  unfold jsgt, jslt. rewrite negb_false_iff. apply (jsle_fin x y).
Qed.

Lemma js_strict_eq_fin (x y : Q) : js_strict_eq (Fin x) (Fin y) = true <-> x == y.
Proof. simpl. apply Qeq_bool_iff. Qed.

Lemma Qeq_bool_false (x y : Q) : Qeq_bool x y = false <-> ~ x == y.
Proof.
  split; intros H.
  - intros E. apply Qeq_bool_iff in E. congruence.
  - destruct (Qeq_bool x y) eqn:E; [|reflexivity].
    apply Qeq_bool_iff in E. contradiction.
Qed.

(** ** The commission rate *)

Lemma commissionRateOf_fin (tr tc : Q) :
  commissionRateOf (Fin tr) (Fin tc) = Fin (rateQ tr tc).
Proof.
  unfold commissionRateOf, rateQ, jsgt, jslt. simpl.
  destruct (Qle_bool tr 0) eqn:E; simpl; [reflexivity|].
  assert (Hz : Qeq_bool tr 0 = false).
  { apply Qeq_bool_false. intros Heq.
    assert (Hle : tr <= 0) by (rewrite Heq; apply Qle_refl).
    apply Qle_bool_iff in Hle. congruence. }
  rewrite Hz. reflexivity.
Qed.

(** ** Rule selection *)








(** ** Shape of the result *)

Lemma length_zero_iff_nil {A : Type} (l : list A) :
  Nat.eqb (List.length l) 0 = true <-> l = [].
Proof. destruct l; simpl; split; congruence. Qed.

Section Shape.

Variables (currentUser : User) (allUsers : list User).
Variables (userId : string) (userAccounts : list Account).
Variables (allSalesData : list SalesData) (rules : list IncentiveRule).

Let run := calculateUserIncentive currentUser allUsers userId userAccounts
             allSalesData rules.
Let t := totalsOf userAccounts allSalesData.
Let name := getUserName currentUser allUsers userId.

Lemma calculate_null :
  userAccounts = [] \/ filter is_active rules = [] -> run = None.
Proof.
  unfold run, calculateUserIncentive. intros [H|H].
  - rewrite H. reflexivity.
  - rewrite H. simpl. destruct (Nat.eqb _ 0); reflexivity.
Qed.

Lemma calculate_unfold :
  userAccounts <> [] -> filter is_active rules <> [] ->
  run =
  match findBestRule (Fin (commissionRate t)) (filter is_active rules) with
  | None => Some (noRuleCalculation name userId t (List.length userAccounts))
  | Some bestRule =>
      Some (ruleCalculation name userId t (List.length userAccounts)
                            bestRule userAccounts)
  end.
Proof.
  intros Ha Hr. unfold run, calculateUserIncentive.
  destruct (Nat.eqb (List.length userAccounts) 0) eqn:E1.
  { apply length_zero_iff_nil in E1. contradiction. }
  destruct (Nat.eqb (List.length (filter is_active rules)) 0) eqn:E2.
  { apply length_zero_iff_nil in E2. contradiction. }
  cbv zeta. rewrite !sumOf_fin, commissionRateOf_fin.
  unfold t, totalsOf; cbv zeta; simpl commissionRate.
  destruct (findBestRule _ _) as [bestRule|]; [|reflexivity].
  unfold ruleCalculation; simpl userSalesData.
  destruct (progressOf _ _ _) as [p m]. reflexivity.
Qed.

Lemma calculate_some (calc : IncentiveCalculation) :
  run = Some calc ->
  userAccounts <> [] /\ filter is_active rules <> [].
Proof.
  intros H. split; intros E;
    rewrite calculate_null in H by auto; discriminate.
Qed.

End Shape.

(** ** Null results, the commission rate and rule selection *)

(** C6: [calculateUserIncentive] returns null exactly when the user has no
    account or no rule is active; otherwise it returns a calculation. *)
Theorem calculateUserIncentive_null_iff
    (currentUser : User) (allUsers : list User) (userId : string)
    (userAccounts : list Account) (allSalesData : list SalesData)
    (rules : list IncentiveRule) :
  calculateUserIncentive currentUser allUsers userId userAccounts
                         allSalesData rules = None
  <-> userAccounts = [] \/ filter is_active rules = [].
Proof.
  split; [|apply calculate_null].
  intros H.
  destruct userAccounts as [|a accs] eqn:Ea; [left; reflexivity|].
  destruct (filter is_active rules) as [|x xs] eqn:Er; [right; reflexivity|].
  exfalso.
  rewrite calculate_unfold in H; [|discriminate|rewrite Er; discriminate].
  destruct (findBestRule _ _); discriminate.
Qed.



(** ** Qualifying accounts *)

Lemma isUserAccount_iff (userAccounts : list Account) (id : string) :
  isUserAccount userAccounts id = true
  <-> exists acc, In acc userAccounts /\ acc_id acc = id.
Proof.
  unfold isUserAccount. rewrite existsb_exists.
  split; intros (acc & Hin & E); exists acc; split; auto;
    apply String.eqb_eq; exact E.
Qed.

Lemma filter_filter_and {A : Type} (p q : A -> bool) (l : list A) :
  filter p (filter q l) = filter (fun x => q x && p x) l.
Proof.
  induction l as [|x l IH]; simpl; [reflexivity|].
  destruct (q x); simpl; [destruct (p x)|]; rewrite IH; reflexivity.
Qed.

(** The rows of a user's account among the user's rows are all its rows. *)
Lemma own_rows_of_user (userAccounts : list Account)
    (allSalesData : list SalesData) (id : string) :
  isUserAccount userAccounts id = true ->
  filter (fun data => String.eqb (account_id data) id)
         (userSalesDataOf userAccounts allSalesData)
  = filter (fun data => String.eqb (account_id data) id) allSalesData.
Proof.
  intros Hu. unfold userSalesDataOf. rewrite filter_filter_and.
  apply filter_ext. intros d.
  destruct (String.eqb (account_id d) id) eqn:E.
  - apply String.eqb_eq in E. rewrite E. fold (isUserAccount userAccounts id).
    rewrite Hu. reflexivity.
  - apply andb_false_r.
Qed.

Lemma accountCommissionOf_own (userAccounts : list Account)
    (allSalesData : list SalesData) (account : Account) :
  In account userAccounts ->
  accountCommissionOf (userSalesDataOf userAccounts allSalesData) account
  = Fin (ownCommission allSalesData (acc_id account)).
Proof.
  intros Hin. unfold accountCommissionOf, ownCommission.
  rewrite sumOf_fin, own_rows_of_user; [reflexivity|].
  apply isUserAccount_iff. exists account. auto.
Qed.

(** Membership in the set built by the [forEach]. *)
Lemma qualifying_fold_In (rule : IncentiveRule) (rows : list SalesData)
    (accounts : list Account) (ids : set string) (id : string) :
  set_In id
    (fold_left
       (fun ids account =>
          if jsge (accountCommissionOf rows account)
                  (Fin (min_commission_threshold rule))
          then set_add string_dec (acc_id account) ids
          else ids)
       accounts ids)
  <-> set_In id ids
      \/ exists account,
           In account accounts /\ acc_id account = id
           /\ jsge (accountCommissionOf rows account)
                   (Fin (min_commission_threshold rule)) = true.
Proof.
  revert ids.
  induction accounts as [|a accounts IH]; intros ids; cbn [fold_left In].
  - split; [auto|]. intros [H|(a & [] & _)]. exact H.
  - rewrite IH.
    destruct (jsge (accountCommissionOf rows a)
                   (Fin (min_commission_threshold rule))) eqn:E; cbv iota.
    + rewrite set_add_iff. split.
      * intros [[Hid|H]|(b & Hin & Hb)]; auto.
        -- right. exists a. auto.
        -- right. exists b. tauto.
      * intros [H|(b & [<-|Hin] & Hid & Hb)]; auto.
        right. exists b. auto.
    + split.
      * intros [H|(b & Hin & Hb)]; auto. right. exists b. tauto.
      * intros [H|(b & [<-|Hin] & Hid & Hb)]; auto.
        -- congruence.
        -- right. exists b. auto.
Qed.

Lemma qualifyingAccountIds_mem (rule : IncentiveRule)
    (userAccounts : list Account) (allSalesData : list SalesData)
    (id : string) :
  set_mem string_dec id
    (qualifyingAccountIdsOf rule userAccounts
       (userSalesDataOf userAccounts allSalesData))
  = qualifies rule userAccounts allSalesData id.
Proof.
  apply eq_true_iff_eq. unfold qualifies.
  rewrite andb_true_iff, isUserAccount_iff, Qle_bool_iff.
  split.
  - intros H. apply set_mem_correct1 in H.
    apply qualifying_fold_In in H. destruct H as [[]|(a & Hin & Hid & Hq)].
    rewrite accountCommissionOf_own in Hq by exact Hin.
    apply jsge_fin in Hq. rewrite Hid in Hq. split; [|exact Hq].
    exists a. auto.
  - intros [(a & Hin & Hid) Hq]. apply set_mem_correct2.
    apply qualifying_fold_In. right. exists a. split; [exact Hin|].
    split; [exact Hid|].
    rewrite accountCommissionOf_own by exact Hin.
    apply jsge_fin. rewrite Hid. exact Hq.
Qed.

Lemma qualifyingRevenueOf_fin (rule : IncentiveRule)
    (userAccounts : list Account) (allSalesData : list SalesData) :
  qualifyingRevenueOf rule userAccounts
    (userSalesDataOf userAccounts allSalesData)
  = Fin (Qsum total_purchases
           (filter (fun data =>
                      qualifies rule userAccounts allSalesData
                                (account_id data))
                   allSalesData)).
Proof.
  unfold qualifyingRevenueOf. cbv zeta. rewrite sumOf_fin. f_equal. f_equal.
  unfold userSalesDataOf at 2. rewrite filter_filter_and.
  apply filter_ext. intros d. rewrite qualifyingAccountIds_mem.
  unfold qualifies. fold (isUserAccount userAccounts (account_id d)).
  destruct (isUserAccount userAccounts (account_id d)); reflexivity.
Qed.

(** ** Sorting the tiers *)

Lemma compareTiers_gt (x y : Tier) :
  jsgt (compareTiers x y) (Fin 0) = true <-> threshold_lt y x.
Proof.
  unfold compareTiers, threshold_lt. simpl jssub. rewrite jsgt_fin. lra.
Qed.

Lemma compareTiers_not_gt (x y : Tier) :
  jsgt (compareTiers x y) (Fin 0) = false <-> threshold_le x y.
Proof.
  unfold compareTiers, threshold_le. simpl jssub. rewrite jsgt_fin_false. lra.
Qed.

Lemma insertTier_perm (x : Tier) (l : list Tier) :
  Permutation (x :: l) (insertTier x l).
Proof.
  induction l as [|y l IH]; cbn [insertTier].
  - apply Permutation_refl.
  - destruct (jsgt (compareTiers x y) (Fin 0)).
    + eapply perm_trans; [apply perm_swap|]. apply perm_skip. exact IH.
    + apply Permutation_refl.
Qed.

Lemma sortTiers_perm (ts : list Tier) : Permutation ts (sortTiers ts).
Proof.
  induction ts as [|x ts IH]; cbn [sortTiers fold_right].
  - apply perm_nil.
  - eapply perm_trans; [|apply insertTier_perm]. apply perm_skip. exact IH.
Qed.

Lemma insertTier_sorted (x : Tier) (l : list Tier) :
  StronglySorted threshold_le l -> StronglySorted threshold_le (insertTier x l).
Proof.
  induction 1 as [|y l Hs IH Hy]; cbn [insertTier].
  - constructor; constructor.
  - destruct (jsgt (compareTiers x y) (Fin 0)) eqn:E.
    + apply compareTiers_gt in E. constructor; [exact IH|].
      apply (Permutation_Forall (insertTier_perm x l)).
      constructor; [|exact Hy].
      unfold threshold_lt in E. unfold threshold_le. lra.
    + apply compareTiers_not_gt in E. constructor.
      * constructor; assumption.
      * constructor; [exact E|].
        eapply Forall_impl; [|exact Hy].
        intros z Hz. unfold threshold_le in *. lra.
Qed.

Lemma sortTiers_sorted (ts : list Tier) :
  StronglySorted threshold_le (sortTiers ts).
Proof.
  induction ts as [|x ts IH]; cbn [sortTiers fold_right].
  - constructor.
  - apply insertTier_sorted. exact IH.
Qed.

Lemma distinct_thresholds_perm (l l' : list Tier) :
  Permutation l l' -> distinct_thresholds l -> distinct_thresholds l'.
Proof.
  unfold distinct_thresholds.
  induction 1 as [|x l l' Hp IH|x y l|l l' l'' _ IH1 _ IH2]; intros H.
  - exact H.
  - inversion H as [|? ? Hx Hl]; subst. constructor.
    + apply (Permutation_Forall Hp). exact Hx.
    + apply IH. exact Hl.
  - inversion H as [|? ? Hy Hl]; subst.
    inversion Hl as [|? ? Hx Hl']; subst.
    inversion Hy as [|? ? Hyx Hyl]; subst.
    constructor; [|constructor; assumption].
    constructor; [|exact Hx].
    intros E. apply Hyx. symmetry. exact E.
  - auto.
Qed.

Lemma sorted_distinct_strict (l : list Tier) :
  StronglySorted threshold_le l -> distinct_thresholds l ->
  StronglySorted threshold_lt l.
Proof.
  unfold distinct_thresholds.
  induction 1 as [|x l Hs IH Hx]; intros Hd.
  - constructor.
  - inversion Hd as [|? ? Hdx Hdl]; subst. constructor; [auto|].
    rewrite Forall_forall in *. intros y Hy.
    specialize (Hx y Hy). specialize (Hdx y Hy).
    unfold threshold_le in Hx. unfold threshold_lt.
    apply Qle_lteq in Hx. tauto.
Qed.

(** A list has at most one strictly ascending arrangement. *)
Lemma strictly_sorted_unique (l l' : list Tier) :
  StronglySorted threshold_lt l -> StronglySorted threshold_lt l' ->
  Permutation l l' -> l = l'.
Proof.
  intros Hl. revert l'.
  induction Hl as [|x l Hs IH Hx]; intros l' Hl' Hp.
  - apply Permutation_nil in Hp. congruence.
  - destruct l' as [|y l'].
    { apply Permutation_sym, Permutation_nil in Hp. discriminate. }
    inversion Hl' as [|? ? Hs' Hy]; subst.
    assert (E : x = y).
    { assert (Hxin : In x (y :: l'))
        by (apply (Permutation_in _ Hp); left; reflexivity).
      assert (Hyin : In y (x :: l))
        by (apply (Permutation_in _ (Permutation_sym Hp)); left; reflexivity).
      destruct Hxin as [E|Hxin]; [congruence|].
      destruct Hyin as [E|Hyin]; [congruence|].
      rewrite Forall_forall in Hx, Hy.
      specialize (Hx y Hyin). specialize (Hy x Hxin).
      unfold threshold_lt in *. lra. }
    subst y. f_equal. apply IH; [exact Hs'|].
    apply (Permutation_cons_inv Hp).
Qed.

(** With pairwise distinct thresholds the sorted list does not depend on the
    order the tiers come in. *)
Lemma sortTiers_permutation_invariant (ts ts' : list Tier) :
  Permutation ts ts' -> distinct_thresholds ts ->
  sortTiers ts = sortTiers ts'.
Proof.
  intros Hp Hd. apply strictly_sorted_unique.
  - apply sorted_distinct_strict; [apply sortTiers_sorted|].
    apply (distinct_thresholds_perm ts); [apply sortTiers_perm|exact Hd].
  - apply sorted_distinct_strict; [apply sortTiers_sorted|].
    apply (distinct_thresholds_perm ts); [|exact Hd].
    eapply perm_trans; [exact Hp|apply sortTiers_perm].
  - eapply perm_trans; [apply Permutation_sym, sortTiers_perm|].
    eapply perm_trans; [exact Hp|apply sortTiers_perm].
Qed.

(** ** The tier loop on a finite qualifying revenue *)

Lemma Math_min_fin (a b : Q) : Math_min (Fin a) (Fin b) = Fin (minQ a b).
Proof. unfold minQ; simpl. destruct (Qle_bool a b); reflexivity. Qed.

Lemma minQ_Qmin (a b : Q) : minQ a b == Qmin a b.
Proof.
  unfold minQ. destruct (Qle_bool a b) eqn:E.
  - apply Qle_bool_iff in E. symmetry. apply Q.min_l. exact E.
  - symmetry. apply Q.min_r. apply Qlt_le_weak.
    apply Qnot_le_lt. intros H. apply Qle_bool_iff in H. congruence.
Qed.

Lemma jsdiv_100 (x : Q) : jsdiv (Fin x) (Fin 100) = Fin (x / 100).
Proof. reflexivity. Qed.

Lemma or_else_cap (q : Q) (later : list Tier) :
  or_else (thresholdOf (hd_error later)) (Fin q) = Fin (capQ q later).
Proof.
  destruct later as [|next later]; simpl; [reflexivity|].
  destruct (Qeq_bool (revenue_threshold next) 0); reflexivity.
Qed.

Lemma tierLoop_pass (q : Q) (i : nat) (tier : Tier) (later : list Tier)
    (st : LoopState) :
  revenue_threshold tier <= q ->
  tierLoop (Fin q) i (tier :: later) st
  = tierLoop (Fin q) (S i) later
      {| incentiveAmount := jsadd (incentiveAmount st) (Fin (bandQ q tier later));
         currentTier := Some tier;
         nextTier := nextTier st |}.
Proof.
  intros H. cbn [tierLoop]. apply jsge_fin in H. rewrite H.
  rewrite or_else_cap, Math_min_fin, jsdiv_100.
  destruct (Nat.eqb i 0); reflexivity.
Qed.

Lemma tierLoop_stop (q : Q) (i : nat) (tier : Tier) (later : list Tier)
    (st : LoopState) :
  q < revenue_threshold tier ->
  tierLoop (Fin q) i (tier :: later) st
  = {| incentiveAmount := incentiveAmount st;
       currentTier := currentTier st;
       nextTier := Some tier |}.
Proof.
  intros H. cbn [tierLoop]. apply jsge_fin_false in H. rewrite H. reflexivity.
Qed.

Lemma threshold_cases (q : Q) (tier : Tier) :
  {revenue_threshold tier <= q} + {q < revenue_threshold tier}.
Proof.
  destruct (Qlt_le_dec q (revenue_threshold tier)); [right|left]; assumption.
Qed.

(** Early exit: the tiers after the one the loop stops at play no part. *)
Lemma tierLoop_early_exit (q : Q) (passed : list Tier) (stop : Tier)
    (rest rest' : list Tier) :
  forall (i : nat) (st : LoopState),
    Forall (fun tier => revenue_threshold tier <= q) passed ->
    q < revenue_threshold stop ->
    tierLoop (Fin q) i (passed ++ stop :: rest) st
    = tierLoop (Fin q) i (passed ++ stop :: rest') st
    /\ nextTier (tierLoop (Fin q) i (passed ++ stop :: rest) st) = Some stop.
Proof.
  induction passed as [|tier passed IH]; intros i st Hp Hs.
  - cbn [app]. rewrite !tierLoop_stop by exact Hs. split; reflexivity.
  - inversion Hp as [|? ? Ht Hp']; subst. cbn [app].
    rewrite !tierLoop_pass by exact Ht.
    assert (Hcap : forall r, capQ q (passed ++ stop :: r)
                             = capQ q (passed ++ stop :: rest)).
    { intros r. destruct passed; reflexivity. }
    unfold bandQ. rewrite (Hcap rest'). apply IH; assumption.
Qed.

(** ** The accrual as the specification words it *)

Lemma bandQ_spec_band (q : Q) (tier : Tier) (later : list Tier) :
  Forall nonzero_threshold (firstn 1 later) ->
  bandQ q tier later == spec_band q tier later.
Proof.
  intros H. unfold bandQ, spec_band, capQ. rewrite minQ_Qmin.
  destruct later as [|next later]; [reflexivity|].
  cbn [firstn] in H. inversion H as [|? ? Hn _]; subst.
  apply Qeq_bool_false in Hn. rewrite Hn. reflexivity.
Qed.

(** Where no tier after the first has threshold 0, the loop accrues what
    the specification's walk accrues. *)
Lemma tierLoop_accrual (q : Q) (remaining : list Tier) :
  forall (i : nat) (st : LoopState) (a : Q),
    Forall nonzero_threshold (tl remaining) ->
    incentiveAmount st = Fin a ->
    exists a',
      incentiveAmount (tierLoop (Fin q) i remaining st) = Fin a'
      /\ a' == a + spec_accrual q remaining.
Proof.
  induction remaining as [|tier later IH]; intros i st a Hnz Ha.
  - exists a. split; [exact Ha|]. cbn [spec_accrual]. ring.
  - cbn [tl] in Hnz. cbn [spec_accrual].
    destruct (threshold_cases q tier) as [H|H].
    + rewrite tierLoop_pass by exact H.
      destruct (IH (S i)
                   {| incentiveAmount :=
                        jsadd (incentiveAmount st) (Fin (bandQ q tier later));
                      currentTier := Some tier;
                      nextTier := nextTier st |}
                   (a + bandQ q tier later)) as (a' & Ha' & Hsum).
      * destruct later; [constructor|]. inversion Hnz; assumption.
      * cbn [incentiveAmount]. rewrite Ha. reflexivity.
      * exists a'. split; [exact Ha'|].
        apply Qle_bool_iff in H. rewrite H, Hsum.
        rewrite bandQ_spec_band; [ring|].
        destruct later; [constructor|].
        inversion Hnz; subst. constructor; [assumption|constructor].
    + rewrite tierLoop_stop by exact H. exists a. split; [exact Ha|].
      apply jsge_fin_false in H. unfold jsge in H. simpl in H.
      rewrite H. ring.
Qed.

(** ** The result under a matched rule *)


(** ** The order of a rule's tiers *)

Lemma tiers_reordered_fields (a b : IncentiveRule) :
  tiers_reordered a b ->
  is_active b = is_active a
  /\ commission_rate_min b = commission_rate_min a
  /\ commission_rate_max b = commission_rate_max a
  /\ min_commission_threshold b = min_commission_threshold a
  /\ base_revenue_threshold b = base_revenue_threshold a
  /\ sortTiers (tiers b) = sortTiers (tiers a).
Proof.
  intros [->|(E & Hp & Hd)].
  - repeat split; reflexivity.
  - repeat split; try (rewrite E; reflexivity).
    symmetry. apply sortTiers_permutation_invariant; assumption.
Qed.

Lemma filter_active_reordered (rules rules' : list IncentiveRule) :
  Forall2 tiers_reordered rules rules' ->
  Forall2 tiers_reordered (filter is_active rules) (filter is_active rules').
Proof.
  induction 1 as [|a b l l' Hab _ IH]; cbn [filter]; [constructor|].
  destruct (tiers_reordered_fields a b Hab) as (-> & _).
  destruct (is_active a); [constructor; assumption|exact IH].
Qed.

Lemma findBestRule_reordered (rate : jsnum) (l l' : list IncentiveRule) :
  Forall2 tiers_reordered l l' ->
  option_tiers_reordered (findBestRule rate l) (findBestRule rate l').
Proof.
  induction 1 as [|a b l l' Hab _ IH]; cbn [findBestRule]; [exact I|].
  destruct (tiers_reordered_fields a b Hab) as (_ & Hmin & Hmax & _).
  unfold inBand. rewrite Hmin, Hmax.
  destruct (_ && _); [exact Hab|exact IH].
Qed.

Lemma ruleCalculation_reordered (userName userId : string) (t : Totals)
    (count : nat) (a b : IncentiveRule) (userAccounts : list Account) :
  tiers_reordered a b ->
  ruleCalculation userName userId t count b userAccounts
  = with_applicable_rule
      (ruleCalculation userName userId t count a userAccounts) (Some b).
Proof.
  intros Hab.
  destruct (tiers_reordered_fields a b Hab)
    as (_ & _ & _ & Hthr & Hbase & Hsort).
  unfold ruleCalculation, with_applicable_rule. cbv zeta.
  cbn [user_id user_name total_revenue total_commission commission_rate
       current_tier next_tier incentive_amount progress_percentage
       remaining_to_next_tier managed_accounts_count].
  assert (Eq : qualifyingRevenueOf b userAccounts (userSalesData t)
               = qualifyingRevenueOf a userAccounts (userSalesData t)).
  { unfold qualifyingRevenueOf, qualifyingAccountIdsOf. rewrite Hthr.
    reflexivity. }
  assert (Ew : forall q, walkTiers b q = walkTiers a q).
  { intros q. unfold walkTiers. rewrite Hsort. reflexivity. }
  assert (Ep : forall q st, progressOf b q st = progressOf a q st).
  { intros q st. unfold progressOf. rewrite Hbase. reflexivity. }
  rewrite Eq, Ew, Ep. reflexivity.
Qed.

(** C10 (as amended): reordering the tiers of a rule whose thresholds are
    pairwise distinct leaves every field of the result unchanged except
    [applicable_rule], which holds the rule as supplied, its tiers in the
    supplied order. *)
Theorem calculation_up_to_tier_order
    (currentUser : User) (allUsers : list User) (userId : string)
    (userAccounts : list Account) (allSalesData : list SalesData)
    (rules rules' : list IncentiveRule) :
  Forall2 tiers_reordered rules rules' ->
  match calculateUserIncentive currentUser allUsers userId userAccounts
                               allSalesData rules,
        calculateUserIncentive currentUser allUsers userId userAccounts
                               allSalesData rules'
  with
  | Some c, Some c' =>
      c' = with_applicable_rule c (applicable_rule c')
      /\ option_tiers_reordered (applicable_rule c) (applicable_rule c')
  | None, None => True
  | _, _ => False
  end.
Proof.
  intros H.
  destruct userAccounts as [|acc accs] eqn:Ea.
  { rewrite !calculate_null by auto. exact I. }
  pose proof (filter_active_reordered _ _ H) as Hf.
  destruct (filter is_active rules) as [|x xs] eqn:Er.
  { inversion Hf as [E|]; subst.
    rewrite !calculate_null by auto. exact I. }
  destruct (filter is_active rules') as [|y ys] eqn:Er'.
  { inversion Hf. }
  rewrite !calculate_unfold by (try rewrite Er; try rewrite Er'; discriminate).
  rewrite Er, Er'.
  pose proof (findBestRule_reordered
                (Fin (commissionRate (totalsOf (acc :: accs) allSalesData)))
                _ _ Hf) as Hb.
  destruct (findBestRule _ (x :: xs)) as [a|];
    destruct (findBestRule _ (y :: ys)) as [b|]; try contradiction.
  - split; [|exact Hb]. apply ruleCalculation_reordered. exact Hb.
  - split; [reflexivity|exact I].
Qed.

Ltac by_evaluation := vm_compute; reflexivity.

(** The scenario of the specification: 1_000_000 at 5% and 500_000 at 10%
    make 100_000. *)
Lemma two_tier_scenario :
  exists calc a,
    Runs.run [mkSalesData "a1" 1500000 150000] [Runs.twoTiers] = Some calc
    /\ incentive_amount calc = Fin a /\ a == 100000
    /\ current_tier calc = Some (mkTier 1000000 10)
    /\ next_tier calc = None.
Proof.
  eexists. eexists. split; [by_evaluation|].
  split; [reflexivity|]. split; [reflexivity|]. split; reflexivity.
Qed.

(** C1 (the code departs from the claim): with tiers (-100, 5%) and (0, 10%)
    and one qualifying account with revenue 50, the walk of the claim
    accrues [(min 50 0 + 100) * 5% + 50 * 10% = 10]; the code reads the
    next threshold 0 as absent and accrues [150 * 5% + 50 * 10% = 12.5]. *)
Theorem accrual_next_threshold_zero :
  exists calc a,
    Runs.run [mkSalesData "a1" 50 20] [Runs.zeroSecond] = Some calc
    /\ applicable_rule calc = Some Runs.zeroSecond
    /\ qualifyingRevenueOf Runs.zeroSecond Runs.accounts
         (userSalesDataOf Runs.accounts [mkSalesData "a1" 50 20]) = Fin 50
    /\ incentive_amount calc = Fin a
    /\ a == 25 # 2
    /\ spec_accrual 50 (sortTiers (tiers Runs.zeroSecond)) == 10.
Proof.
  eexists. eexists. split; [by_evaluation|].
  split; [reflexivity|]. split; [by_evaluation|].
  split; [reflexivity|]. split; reflexivity.
Qed.

(** *** Instances of the theorems *)



Lemma calculation_up_to_tier_order_witness :
  match Runs.run [mkSalesData "a1" 2000 200] [Runs.aboveZero],
        Runs.run [mkSalesData "a1" 2000 200]
                 [Runs.aboveZeroReordered]
  with
  | Some c, Some c' =>
      c' = with_applicable_rule c (applicable_rule c')
      /\ option_tiers_reordered (applicable_rule c) (applicable_rule c')
  | None, None => True
  | _, _ => False
  end.
Proof.
  apply (calculation_up_to_tier_order Runs.ann [] "u1" Runs.accounts
           [mkSalesData "a1" 2000 200]).
  constructor; [|constructor]. right. split; [reflexivity|]. split.
  - apply perm_swap.
  - repeat constructor. intros E; vm_compute in E; discriminate E.
Defined.

(** *** Inputs on which a statement of the specification fails *)

(** C10, as stated: the same rule with its two tiers, of distinct
    thresholds, in the other order: the results differ in
    [applicable_rule], which holds the rule as supplied. *)
Lemma calculation_differs_in_applicable_rule :
  Permutation (tiers Runs.aboveZero) (tiers Runs.aboveZeroReordered)
  /\ distinct_thresholds (tiers Runs.aboveZero)
  /\ Runs.run [mkSalesData "a1" 2000 200] [Runs.aboveZero]
     <> Runs.run [mkSalesData "a1" 2000 200] [Runs.aboveZeroReordered].
Proof.
  split; [apply perm_swap|]. split.
  - repeat constructor. intros E; vm_compute in E; discriminate E.
  - intros E. vm_compute in E. discriminate E.
Qed.

(** * Further properties of the component *)

(** ** The sort *)

Section ArraySortFacts.

Context {A : Type}.
Variable compareFn : A -> A -> jsnum.

Lemma arrayInsert_perm (x : A) (l : list A) :
  Permutation (x :: l) (arrayInsert compareFn x l).
Proof.
  induction l as [|y l IH]; cbn [arrayInsert].
  - apply Permutation_refl.
  - destruct (jsgt (compareFn x y) (Fin 0)).
    + eapply perm_trans; [apply perm_swap|]. apply perm_skip. exact IH.
    + apply Permutation_refl.
Qed.

Lemma arraySort_perm (l : list A) : Permutation l (arraySort compareFn l).
Proof.
  induction l as [|x l IH]; cbn [arraySort fold_right].
  - apply perm_nil.
  - eapply perm_trans; [|apply arrayInsert_perm]. apply perm_skip. exact IH.
Qed.

(** Where the comparator orders the elements of a class [P] as a transitive
    relation [before] does, the sort of a list of [P] is in that order. *)
Section Ordered.

Variable P : A -> Prop.
Variable before : A -> A -> Prop.

Hypothesis compare_gt : forall x y,
  P x -> P y -> jsgt (compareFn x y) (Fin 0) = true -> before y x.
Hypothesis compare_not_gt : forall x y,
  P x -> P y -> jsgt (compareFn x y) (Fin 0) = false -> before x y.
Hypothesis before_trans : forall x y z,
  before x y -> before y z -> before x z.

Lemma arrayInsert_sorted (x : A) (l : list A) :
  P x -> Forall P l ->
  StronglySorted before l -> StronglySorted before (arrayInsert compareFn x l).
Proof.
  intros Px Pl Hs. induction Hs as [|y l Hs IH Hy]; cbn [arrayInsert].
  - constructor; constructor.
  - inversion Pl as [|? ? Py Pl']; subst.
    destruct (jsgt (compareFn x y) (Fin 0)) eqn:E.
    + constructor; [apply IH; exact Pl'|].
      apply (Permutation_Forall (arrayInsert_perm x l)).
      constructor; [|exact Hy]. apply compare_gt; assumption.
    + constructor.
      * constructor; assumption.
      * assert (Hxy : before x y) by (apply compare_not_gt; assumption).
        constructor; [exact Hxy|].
        eapply Forall_impl; [|exact Hy].
        intros z Hz. exact (before_trans _ _ _ Hxy Hz).
Qed.

Lemma arraySort_sorted (l : list A) :
  Forall P l -> StronglySorted before (arraySort compareFn l).
Proof.
  induction 1 as [|x l Px Pl IH]; cbn [arraySort fold_right].
  - constructor.
  - apply arrayInsert_sorted; [exact Px| |exact IH].
    apply (Permutation_Forall (arraySort_perm l)). exact Pl.
Qed.

End Ordered.

(** Stability: the elements of a class whose members never compare as
    greater than one another keep their order. *)
Section Stable.

Variable p : A -> bool.
Hypothesis ties : forall x y,
  p x = true -> p y = true -> jsgt (compareFn x y) (Fin 0) = false.

Lemma arrayInsert_filter (x : A) (l : list A) :
  filter p (arrayInsert compareFn x l) = filter p (x :: l).
Proof.
  induction l as [|y l IH]; cbn [arrayInsert]; [reflexivity|].
  destruct (jsgt (compareFn x y) (Fin 0)) eqn:E; [|reflexivity].
  cbn [filter] in *. rewrite IH.
  destruct (p x) eqn:Px; destruct (p y) eqn:Py; try reflexivity.
  rewrite (ties x y Px Py) in E. discriminate E.
Qed.

Lemma arraySort_filter (l : list A) :
  filter p (arraySort compareFn l) = filter p l.
Proof.
  induction l as [|x l IH]; cbn [arraySort fold_right]; [reflexivity|].
  rewrite arrayInsert_filter. cbn [filter]. fold (arraySort compareFn l).
  rewrite IH. reflexivity.
Qed.

End Stable.

End ArraySortFacts.

Lemma sortTiers_arraySort (ts : list Tier) :
  sortTiers ts = arraySort compareTiers ts.
Proof.
  unfold sortTiers, arraySort. induction ts as [|x ts IH]; cbn [fold_right].
  - reflexivity.
  - rewrite IH. generalize (fold_right (arrayInsert compareTiers) [] ts).
    intros l. induction l as [|y l IHl]; cbn [insertTier arrayInsert].
    + reflexivity.
    + rewrite IHl. reflexivity.
Qed.

(** X1: the sorted tiers are the rule's tiers, in ascending order of
    threshold, tiers of equal threshold in the order they were given. *)
Theorem sortTiers_ascending_stable (ts : list Tier) :
  Permutation ts (sortTiers ts)
  /\ StronglySorted threshold_le (sortTiers ts)
  /\ forall v,
       filter (fun tier => Qeq_bool (revenue_threshold tier) v) (sortTiers ts)
       = filter (fun tier => Qeq_bool (revenue_threshold tier) v) ts.
Proof.
  split; [apply sortTiers_perm|]. split; [apply sortTiers_sorted|].
  intros v. rewrite sortTiers_arraySort. apply arraySort_filter.
  intros x y Hx Hy. apply compareTiers_not_gt. unfold threshold_le.
  apply Qeq_bool_iff in Hx. apply Qeq_bool_iff in Hy. lra.
Qed.

(** ** Growth of the incentive amount *)











(** ** Which tiers are current and next *)





(** ** The rules the calculation reads *)

Lemma filter_idem {A : Type} (p : A -> bool) (l : list A) :
  filter p (filter p l) = filter p l.
Proof.
  rewrite filter_filter_and. apply filter_ext. intros x.
  destruct (p x); reflexivity.
Qed.

Lemma calculate_active_rules_only
    (currentUser : User) (allUsers : list User) (userId : string)
    (userAccounts : list Account) (allSalesData : list SalesData)
    (rules : list IncentiveRule) :
  calculateUserIncentive currentUser allUsers userId userAccounts
                         allSalesData rules
  = calculateUserIncentive currentUser allUsers userId userAccounts
                           allSalesData (filter is_active rules).
Proof.
  unfold calculateUserIncentive. rewrite filter_idem. reflexivity.
Qed.

(** ** Names *)

Lemma substring_length (n : nat) (s : string) :
  String.length (substring 0 n s) = Nat.min n (String.length s).
Proof.
  revert s. induction n as [|n IH]; intros s.
  - destruct s; reflexivity.
  - destruct s as [|c s]; [reflexivity|]. cbn [substring String.length].
    rewrite IH. reflexivity.
Qed.

Lemma find_user_unique (allUsers : list User) (u : User) :
  NoDup (map usr_id allUsers) -> In u allUsers ->
  find (fun x => String.eqb (usr_id x) (usr_id u)) allUsers = Some u.
Proof.
  induction allUsers as [|x l IH]; intros Hnd Hin; [destruct Hin|].
  cbn [map] in Hnd. inversion Hnd as [|? ? Hx Hl]; subst. cbn [find].
  destruct Hin as [->|Hin].
  - rewrite String.eqb_refl. reflexivity.
  - destruct (String.eqb (usr_id x) (usr_id u)) eqn:E.
    + apply String.eqb_eq in E. exfalso. apply Hx. rewrite E.
      apply in_map. exact Hin.
    + apply IH; assumption.
Qed.

Lemma find_user_none (allUsers : list User) (id : string) :
  (forall u, In u allUsers -> usr_id u <> id) ->
  find (fun x => String.eqb (usr_id x) id) allUsers = None.
Proof.
  intros H. destruct (find _ allUsers) as [u|] eqn:E; [|reflexivity].
  apply find_some in E. destruct E as [Hin Heq].
  apply String.eqb_eq in Heq. destruct (H u Hin Heq).
Qed.

(** X7: the current user's id gives the current user's name whatever the
    directory holds; in a directory without repeated ids the id of an entry
    other than the current user gives that entry's name; an id that is
    neither gives "User " and the first 8 characters of the id, at most 13
    characters. *)
Theorem getUserName_lookup (currentUser : User) (allUsers : list User) :
  getUserName currentUser allUsers (usr_id currentUser) = usr_name currentUser
  /\ (NoDup (map usr_id allUsers) ->
      forall u, In u allUsers -> usr_id u <> usr_id currentUser ->
                getUserName currentUser allUsers (usr_id u) = usr_name u)
  /\ (forall id,
        id <> usr_id currentUser ->
        (forall u, In u allUsers -> usr_id u <> id) ->
        getUserName currentUser allUsers id
        = ("User " ++ substring 0 8 id)%string
        /\ String.length (getUserName currentUser allUsers id)
           = (5 + Nat.min 8 (String.length id))%nat).
Proof.
  unfold getUserName. split; [|split].
  - rewrite String.eqb_refl. reflexivity.
  - intros Hnd u Hin Hne. apply String.eqb_neq in Hne. rewrite Hne.
    rewrite find_user_unique by assumption. reflexivity.
  - intros id Hne Habs. apply String.eqb_neq in Hne. rewrite Hne.
    rewrite find_user_none by exact Habs. split; [reflexivity|].
    cbn [append String.length]. rewrite substring_length. reflexivity.
Qed.

(** ** The list of calculations *)

Lemma calculate_exists
    (currentUser : User) (allUsers : list User) (userId : string)
    (userAccounts : list Account) (allSalesData : list SalesData)
    (rules : list IncentiveRule) :
  userAccounts <> [] -> filter is_active rules <> [] ->
  exists calc,
    calculateUserIncentive currentUser allUsers userId userAccounts
                           allSalesData rules = Some calc.
Proof.
  intros Ha Hr. rewrite calculate_unfold by assumption.
  destruct (findBestRule _ _); eexists; reflexivity.
Qed.

Lemma calculate_fields
    (currentUser : User) (allUsers : list User) (userId : string)
    (userAccounts : list Account) (allSalesData : list SalesData)
    (rules : list IncentiveRule) (calc : IncentiveCalculation) :
  calculateUserIncentive currentUser allUsers userId userAccounts
                         allSalesData rules = Some calc ->
  user_id calc = userId
  /\ user_name calc = getUserName currentUser allUsers userId
  /\ managed_accounts_count calc = List.length userAccounts
  /\ total_revenue calc
     = Fin (Qsum total_purchases (userSalesDataOf userAccounts allSalesData))
  /\ total_commission calc
     = Fin (Qsum gross_commission (userSalesDataOf userAccounts allSalesData))
  /\ exists r, commission_rate calc = Fin r.
Proof.
  intros H.
  destruct (calculate_some _ _ _ _ _ _ _ H) as [Ha Hr].
  rewrite calculate_unfold in H by assumption.
  destruct (findBestRule _ _); injection H as <-;
    repeat split; eexists; reflexivity.
Qed.

Lemma fold_set_add_In (l : list string) (init : set string) (x : string) :
  In x (fold_left (fun ids userId => set_add string_dec userId ids) l init)
  <-> In x init \/ In x l.
Proof.
  revert init. induction l as [|y l IH]; intros init; cbn [fold_left In].
  - tauto.
  - rewrite IH, set_add_iff. intuition congruence.
Qed.

Lemma fold_set_add_NoDup (l : list string) (init : set string) :
  NoDup init ->
  NoDup (fold_left (fun ids userId => set_add string_dec userId ids) l init).
Proof.
  revert init. induction l as [|y l IH]; intros init H; cbn [fold_left].
  - exact H.
  - apply IH. apply set_add_nodup. exact H.
Qed.

Lemma userIdsOf_In (accounts : list Account) (id : string) :
  In id (userIdsOf accounts)
  <-> id <> ""%string
      /\ exists acc, In acc accounts /\ acc_user_id acc = id.
Proof.
  unfold userIdsOf. rewrite fold_set_add_In, filter_In, in_map_iff.
  rewrite negb_true_iff, String.eqb_neq. cbn [empty_set In].
  split.
  - intros [[]|[(acc & E & Hin) Hne]]. split; [exact Hne|]. eauto.
  - intros [Hne (acc & Hin & E)]. right. split; [|exact Hne]. eauto.
Qed.

Lemma userIdsOf_NoDup (accounts : list Account) : NoDup (userIdsOf accounts).
Proof. apply fold_set_add_NoDup. constructor. Qed.

Lemma accountsOf_nonempty (accounts : list Account) (id : string) :
  In id (userIdsOf accounts) -> accountsOf accounts id <> [].
Proof.
  intros H. apply userIdsOf_In in H. destruct H as [_ (acc & Hin & E)].
  intros Habs.
  assert (Hacc : In acc (accountsOf accounts id)).
  { apply filter_In. split; [exact Hin|]. apply String.eqb_eq. exact E. }
  rewrite Habs in Hacc. destruct Hacc.
Qed.

(** The [forEach] pushes one calculation for each user id that has an
    account. *)
Lemma pushUser_fold (currentUser : User) (allUsers : list User)
    (accounts : list Account) (salesData : list SalesData)
    (activeRules : list IncentiveRule) (ids : list string) :
  filter is_active activeRules <> [] ->
  (forall id, In id ids -> accountsOf accounts id <> []) ->
  forall out,
  exists pushed,
    fold_left (pushUser currentUser allUsers accounts salesData activeRules)
              ids out = out ++ pushed
    /\ map user_id pushed = ids
    /\ Forall (calculation_of currentUser allUsers accounts salesData
                              activeRules) pushed.
Proof.
  intros Hr. induction ids as [|id ids IH]; intros Hids out.
  - exists []. cbn [fold_left]. rewrite app_nil_r. auto.
  - cbn [fold_left]. unfold pushUser at 2. cbv zeta.
    fold (accountsOf accounts id).
    destruct (calculate_exists currentUser allUsers id
                (accountsOf accounts id) salesData activeRules)
      as (calc & Hcalc); [apply Hids; left; reflexivity|exact Hr|].
    rewrite Hcalc.
    destruct (IH (fun x Hx => Hids x (or_intror Hx)) (out ++ [calc]))
      as (pushed & E & Hmap & Hall).
    exists (calc :: pushed). rewrite E, <- app_assoc. split; [reflexivity|].
    destruct (calculate_fields _ _ _ _ _ _ _ Hcalc) as (Hid & _).
    split.
    + cbn [map]. rewrite Hid, Hmap. reflexivity.
    + constructor; [|exact Hall]. unfold calculation_of. rewrite Hid.
      exact Hcalc.
Qed.

(** Whatever the [forEach] pushes is a result of the calculation. *)
Lemma pushUser_fold_produced (currentUser : User) (allUsers : list User)
    (accounts : list Account) (salesData : list SalesData)
    (activeRules : list IncentiveRule) (ids : list string) :
  forall out,
    Forall (produced_by currentUser allUsers salesData activeRules) out ->
    Forall (produced_by currentUser allUsers salesData activeRules)
           (fold_left (pushUser currentUser allUsers accounts salesData
                                activeRules) ids out).
Proof.
  induction ids as [|id ids IH]; intros out Hout; cbn [fold_left].
  - exact Hout.
  - apply IH. unfold pushUser.
    destruct (calculateUserIncentive _ _ _ _ _ _) as [calc|] eqn:E;
      [|exact Hout].
    apply Forall_app. split; [exact Hout|]. constructor; [|constructor].
    eexists. eexists. exact E.
Qed.

Lemma incentiveCalculations_no_rule
    (currentUser : User) (allUsers : list User) (accounts : list Account)
    (salesData : list SalesData) (incentiveRules : list IncentiveRule) :
  filter is_active incentiveRules = [] ->
  incentiveCalculations currentUser allUsers accounts salesData incentiveRules
  = [].
Proof. intros H. unfold incentiveCalculations. rewrite H. reflexivity. Qed.

Lemma incentiveCalculations_unfold
    (currentUser : User) (allUsers : list User) (accounts : list Account)
    (salesData : list SalesData) (incentiveRules : list IncentiveRule) :
  filter is_active incentiveRules <> [] ->
  incentiveCalculations currentUser allUsers accounts salesData incentiveRules
  = arraySort byIncentiveDesc
      (if String.eqb (usr_role currentUser) "superadmin"
       then fold_left (pushUser currentUser allUsers accounts salesData
                                (filter is_active incentiveRules))
                      (userIdsOf accounts) []
       else match calculateUserIncentive currentUser allUsers
                    (usr_id currentUser) (managedBy currentUser accounts)
                    salesData incentiveRules with
            | Some calculation => [calculation]
            | None => []
            end).
Proof.
  intros H. unfold incentiveCalculations.
  destruct (Nat.eqb (List.length (filter is_active incentiveRules)) 0) eqn:E.
  { apply length_zero_iff_nil in E. contradiction. }
  cbv zeta. fold (managedBy currentUser accounts).
  rewrite <- calculate_active_rules_only. reflexivity.
Qed.

(** X8: a user who is not superadmin gets at most one calculation, their
    own: none when no rule is active or none of the accounts is among their
    managed accounts, and otherwise exactly the calculation over the
    accounts they manage, under their own id and name. *)
Theorem regular_user_gets_own_calculation
    (currentUser : User) (allUsers : list User) (accounts : list Account)
    (salesData : list SalesData) (incentiveRules : list IncentiveRule) :
  usr_role currentUser <> "superadmin"%string ->
  let listed :=
    incentiveCalculations currentUser allUsers accounts salesData
                          incentiveRules in
  let managed := managedBy currentUser accounts in
  (filter is_active incentiveRules = [] \/ managed = [] -> listed = [])
  /\ (filter is_active incentiveRules <> [] -> managed <> [] ->
      exists calc,
        listed = [calc]
        /\ calculateUserIncentive currentUser allUsers (usr_id currentUser)
                                  managed salesData incentiveRules = Some calc
        /\ user_id calc = usr_id currentUser
        /\ user_name calc = usr_name currentUser
        /\ managed_accounts_count calc = List.length managed).
Proof.
  intros Hrole listed managed. apply String.eqb_neq in Hrole. split.
  - intros [H|H].
    + apply incentiveCalculations_no_rule. exact H.
    + destruct (filter is_active incentiveRules) as [|r rs] eqn:Er.
      { apply incentiveCalculations_no_rule. exact Er. }
      unfold listed. rewrite incentiveCalculations_unfold
        by (rewrite Er; discriminate).
      rewrite Hrole. fold managed. rewrite calculate_null by auto.
      reflexivity.
  - intros Hr Hm. unfold listed.
    rewrite incentiveCalculations_unfold by exact Hr. rewrite Hrole.
    fold managed.
    destruct (calculate_exists currentUser allUsers (usr_id currentUser)
                managed salesData incentiveRules Hm Hr) as (calc & Hcalc).
    rewrite Hcalc. exists calc. split; [reflexivity|].
    split; [reflexivity|].
    destruct (calculate_fields _ _ _ _ _ _ _ Hcalc) as (Hid & Hname & Hn & _).
    split; [exact Hid|]. split; [|exact Hn].
    rewrite Hname. unfold getUserName. rewrite String.eqb_refl. reflexivity.
Qed.

(** X9: for a superadmin, when a rule is active, the list holds exactly one
    calculation for each user id of the accounts that is not empty: the ids
    of the list are pairwise distinct, and each calculation is the one of
    its user over the accounts with that user id. *)
Theorem superadmin_gets_one_calculation_per_user
    (currentUser : User) (allUsers : list User) (accounts : list Account)
    (salesData : list SalesData) (incentiveRules : list IncentiveRule) :
  usr_role currentUser = "superadmin"%string ->
  filter is_active incentiveRules <> [] ->
  let listed :=
    incentiveCalculations currentUser allUsers accounts salesData
                          incentiveRules in
  NoDup (map user_id listed)
  /\ (forall id,
        In id (map user_id listed)
        <-> id <> ""%string
            /\ exists acc, In acc accounts /\ acc_user_id acc = id)
  /\ (forall c,
        In c listed ->
        calculateUserIncentive currentUser allUsers (user_id c)
                               (accountsOf accounts (user_id c)) salesData
                               incentiveRules = Some c).
Proof.
  intros Hrole Hr listed. apply String.eqb_eq in Hrole.
  assert (Hr' : filter is_active (filter is_active incentiveRules) <> [])
    by (rewrite filter_idem; exact Hr).
  destruct (pushUser_fold currentUser allUsers accounts salesData
              (filter is_active incentiveRules) (userIdsOf accounts) Hr'
              (accountsOf_nonempty accounts) [])
    as (pushed & E & Hmap & Hall).
  cbn [app] in E.
  assert (Hperm : Permutation pushed listed).
  { unfold listed. rewrite incentiveCalculations_unfold by exact Hr.
    rewrite Hrole, E. apply arraySort_perm. }
  assert (Hids : Permutation (userIdsOf accounts) (map user_id listed)).
  { rewrite <- Hmap. apply Permutation_map. exact Hperm. }
  split; [|split].
  - apply (Permutation_NoDup Hids). apply userIdsOf_NoDup.
  - intros id. rewrite <- userIdsOf_In. split; apply Permutation_in.
    + apply Permutation_sym. exact Hids.
    + exact Hids.
  - intros c Hin. rewrite calculate_active_rules_only.
    rewrite Forall_forall in Hall. apply Hall.
    apply (Permutation_in _ (Permutation_sym Hperm)). exact Hin.
Qed.

Lemma amount_desc_trans (a b c : IncentiveCalculation) :
  amount_desc a b -> amount_desc b c -> amount_desc a c.
Proof.
  intros (x & y & Hx & Hy & Hxy) (y' & z & Hy' & Hz & Hyz).
  rewrite Hy in Hy'. injection Hy' as <-.
  exists x, z. split; [exact Hx|]. split; [exact Hz|]. lra.
Qed.

Lemma userCalculations_produced
    (currentUser : User) (allUsers : list User) (accounts : list Account)
    (salesData : list SalesData) (incentiveRules : list IncentiveRule) :
  Forall (produced_by currentUser allUsers salesData incentiveRules)
         (incentiveCalculations currentUser allUsers accounts salesData
                                incentiveRules).
Proof.
  destruct (filter is_active incentiveRules) as [|r rs] eqn:Er.
  { rewrite incentiveCalculations_no_rule by exact Er. constructor. }
  rewrite incentiveCalculations_unfold by (rewrite Er; discriminate).
  eapply Permutation_Forall; [apply arraySort_perm|].
  destruct (String.eqb (usr_role currentUser) "superadmin").
  - eapply Forall_impl;
      [|apply pushUser_fold_produced; constructor].
    intros c (userId & userAccounts & H). exists userId, userAccounts.
    rewrite calculate_active_rules_only. exact H.
  - destruct (calculateUserIncentive _ _ _ _ _ _) as [calc|] eqn:E;
      constructor; [|constructor].
    eexists. eexists. exact E.
Qed.

(** X10: each entry of the list of calculations is a result of
    [calculateUserIncentive] on the sales data and the rules, and a list
    whose incentive amounts are all finite numbers is in descending order of
    incentive amount. *)
Theorem incentiveCalculations_sorted_descending
    (currentUser : User) (allUsers : list User) (accounts : list Account)
    (salesData : list SalesData) (incentiveRules : list IncentiveRule) :
  let listed :=
    incentiveCalculations currentUser allUsers accounts salesData
                          incentiveRules in
  Forall (produced_by currentUser allUsers salesData incentiveRules) listed
  /\ (Forall finite_amount listed -> StronglySorted amount_desc listed).
Proof.
  intros listed. split; [apply userCalculations_produced|].
  unfold listed.
  destruct (filter is_active incentiveRules) as [|r rs] eqn:Er.
  { rewrite incentiveCalculations_no_rule by exact Er. constructor. }
  rewrite incentiveCalculations_unfold by (rewrite Er; discriminate).
  match goal with
  | |- Forall _ (arraySort _ ?l) -> _ => set (unsorted := l)
  end.
  intros Hfin.
  apply (arraySort_sorted byIncentiveDesc finite_amount amount_desc).
  - intros x y (a & Ha) (b & Hb) H. unfold byIncentiveDesc in H.
    rewrite Ha, Hb in H. cbn [jssub] in H. apply jsgt_fin in H.
    exists b, a. split; [exact Hb|]. split; [exact Ha|]. lra.
  - intros x y (a & Ha) (b & Hb) H. unfold byIncentiveDesc in H.
    rewrite Ha, Hb in H. cbn [jssub] in H. apply jsgt_fin_false in H.
    exists a, b. split; [exact Ha|]. split; [exact Hb|]. lra.
  - apply amount_desc_trans.
  - exact (Permutation_Forall
             (Permutation_sym (arraySort_perm byIncentiveDesc unsorted))
             Hfin).
Qed.

(** ** The displayed list *)

Lemma display_order_trans (sortBy : SortBy.t) (sortOrder : SortOrder.t)
    (a b c : IncentiveCalculation) :
  display_order sortBy sortOrder a b -> display_order sortBy sortOrder b c ->
  display_order sortBy sortOrder a c.
Proof.
  intros (x & y & Hx & Hy & Hxy) (y' & z & Hy' & Hz & Hyz).
  rewrite Hy in Hy'. injection Hy' as <-.
  exists x, z. split; [exact Hx|]. split; [exact Hz|].
  destruct sortOrder; lra.
Qed.

Lemma applyFilter_incl (filterBy : FilterBy.t)
    (l : list IncentiveCalculation) (P : IncentiveCalculation -> Prop) :
  Forall P l -> Forall P (applyFilter filterBy l).
Proof.
  intros H. destruct filterBy; cbn [applyFilter]; [exact H| |];
    rewrite Forall_forall in *; intros c Hc; apply H;
    apply filter_In in Hc; tauto.
Qed.

(** X11: whatever filter, key and direction are chosen, the displayed list
    holds exactly the calculations the filter lets through, each as often
    as the list of calculations has it; when the values of the chosen key
    are all finite numbers, the displayed list is in the order of the key
    and direction, and calculations of equal key keep the order they have
    in the list of calculations. *)
Theorem displayed_list_filtered_and_sorted
    (filterBy : FilterBy.t) (sortBy : SortBy.t) (sortOrder : SortOrder.t)
    (calculations : list IncentiveCalculation) :
  let shown :=
    filteredAndSortedCalculations filterBy sortBy sortOrder calculations in
  Permutation shown (applyFilter filterBy calculations)
  /\ (Forall (finite_key sortBy) calculations ->
      StronglySorted (display_order sortBy sortOrder) shown
      /\ forall v,
           with_value sortBy v shown
           = with_value sortBy v (applyFilter filterBy calculations)).
Proof.
  intros shown. unfold shown, filteredAndSortedCalculations.
  cbv zeta. split; [apply Permutation_sym, arraySort_perm|].
  intros Hfin. split.
  - apply (arraySort_sorted (displayCompare sortBy sortOrder)
             (finite_key sortBy) (display_order sortBy sortOrder)).
    + intros x y (a & Ha) (b & Hb) H. unfold displayCompare in H.
      cbv zeta in H. rewrite Ha, Hb in H. exists b, a.
      split; [exact Hb|]. split; [exact Ha|].
      destruct sortOrder; cbn [jssub] in H; apply jsgt_fin in H; lra.
    + intros x y (a & Ha) (b & Hb) H. unfold displayCompare in H.
      cbv zeta in H. rewrite Ha, Hb in H. exists a, b.
      split; [exact Ha|]. split; [exact Hb|].
      destruct sortOrder; cbn [jssub] in H; apply jsgt_fin_false in H; lra.
    + apply display_order_trans.
    + apply applyFilter_incl. exact Hfin.
  - intros v. unfold with_value. apply arraySort_filter.
    intros x y Hx Hy. unfold displayCompare. cbv zeta.
    destruct (sortValue sortBy x) as [a| | |]; try discriminate Hx.
    destruct (sortValue sortBy y) as [b| | |]; try discriminate Hy.
    apply js_strict_eq_fin in Hx. apply js_strict_eq_fin in Hy.
    destruct sortOrder; cbn [jssub]; apply jsgt_fin_false; lra.
Qed.

(** ** The order of the accounts *)

Lemma isUserAccount_perm (accs accs' : list Account) (id : string) :
  Permutation accs accs' ->
  isUserAccount accs id = isUserAccount accs' id.
Proof.
  intros Hp. apply eq_true_iff_eq. rewrite !isUserAccount_iff.
  split; intros (acc & Hin & E); exists acc; split; auto.
  - apply (Permutation_in _ Hp). exact Hin.
  - apply (Permutation_in _ (Permutation_sym Hp)). exact Hin.
Qed.

Lemma userSalesDataOf_perm (accs accs' : list Account)
    (sales : list SalesData) :
  Permutation accs accs' ->
  userSalesDataOf accs sales = userSalesDataOf accs' sales.
Proof.
  intros Hp. unfold userSalesDataOf. apply filter_ext. intros d.
  apply (isUserAccount_perm accs accs' (account_id d) Hp).
Qed.

(** X15: the result does not depend on the order in which the user's
    accounts are given. *)
Theorem calculation_invariant_under_account_order
    (currentUser : User) (allUsers : list User) (userId : string)
    (userAccounts userAccounts' : list Account)
    (allSalesData : list SalesData) (rules : list IncentiveRule) :
  Permutation userAccounts userAccounts' ->
  calculateUserIncentive currentUser allUsers userId userAccounts
                         allSalesData rules
  = calculateUserIncentive currentUser allUsers userId userAccounts'
                           allSalesData rules.
Proof.
  intros Hp.
  destruct userAccounts as [|acc accs] eqn:Ea.
  { apply Permutation_nil in Hp. rewrite Hp. reflexivity. }
  rewrite <- Ea in *. assert (Hne : userAccounts <> [])
    by (rewrite Ea; discriminate).
  assert (Hne' : userAccounts' <> []).
  { intros E. rewrite E in Hp. apply Permutation_sym, Permutation_nil in Hp.
    contradiction. }
  clear Ea acc accs.
  destruct (filter is_active rules) as [|r rs] eqn:Er.
  { rewrite !calculate_null by auto. reflexivity. }
  rewrite !calculate_unfold by (try rewrite Er; auto; discriminate).
  assert (Et : totalsOf userAccounts' allSalesData
               = totalsOf userAccounts allSalesData).
  { unfold totalsOf. rewrite (userSalesDataOf_perm _ _ _ Hp). reflexivity. }
  rewrite Et, <- (Permutation_length Hp).
  destruct (findBestRule _ _) as [rule|]; [|reflexivity].
  f_equal. unfold ruleCalculation. cbn [totalsOf userSalesData].
  assert (Eq : qualifyingRevenueOf rule userAccounts'
                 (userSalesDataOf userAccounts allSalesData)
               = qualifyingRevenueOf rule userAccounts
                   (userSalesDataOf userAccounts allSalesData)).
  { rewrite (userSalesDataOf_perm _ _ _ Hp) at 1.
    rewrite !qualifyingRevenueOf_fin. f_equal. f_equal.
    apply filter_ext. intros d. unfold qualifies.
    rewrite (isUserAccount_perm _ _ _ Hp). reflexivity. }
  rewrite Eq. reflexivity.
Qed.

(** *** Instances of the further theorems *)

Ltac by_discriminate :=
  let E := fresh "E" in intros E; vm_compute in E; discriminate E.




Lemma regular_user_gets_own_calculation_witness :
  exists calc,
    incentiveCalculations Runs.ann [] Runs.accounts
                          [mkSalesData "a1" 2000 200] [Runs.aboveZero]
    = [calc]
    /\ user_id calc = "u1"%string /\ user_name calc = "Ann"%string
    /\ managed_accounts_count calc = 1%nat.
Proof.
  destruct (regular_user_gets_own_calculation Runs.ann [] Runs.accounts
              [mkSalesData "a1" 2000 200] [Runs.aboveZero])
    as [_ H]; [by_discriminate|].
  destruct H as (calc & Hl & _ & Hid & Hname & Hn);
    [by_discriminate|by_discriminate|].
  exists calc. split; [exact Hl|]. split; [exact Hid|].
  split; [exact Hname|exact Hn].
Defined.

Lemma superadmin_gets_one_calculation_per_user_witness :
  NoDup (map user_id Team.listed)
  /\ In "u1"%string (map user_id Team.listed)
  /\ In "u2"%string (map user_id Team.listed)
  /\ ~ In ""%string (map user_id Team.listed).
Proof.
  destruct (superadmin_gets_one_calculation_per_user Team.boss []
              Team.accounts Team.sales Team.rules)
    as (Hnd & Hin & _); [reflexivity|by_discriminate|].
  split; [exact Hnd|]. split; [|split].
  - apply Hin. split; [discriminate|].
    exists (mkAccount "a1" "u1"). split; [left; reflexivity|reflexivity].
  - apply Hin. split; [discriminate|].
    exists (mkAccount "a2" "u2").
    split; [right; left; reflexivity|reflexivity].
  - intros Habs. apply Hin in Habs. destruct Habs as [Hne _].
    apply Hne. reflexivity.
Defined.

Lemma calculation_invariant_under_account_order_witness :
  calculateUserIncentive Team.boss [] "u1"
    [mkAccount "a1" "u1"; mkAccount "a3" "u1"] Team.sales Team.rules
  = calculateUserIncentive Team.boss [] "u1"
      [mkAccount "a3" "u1"; mkAccount "a1" "u1"] Team.sales Team.rules.
Proof.
  apply calculation_invariant_under_account_order. apply perm_swap.
Defined.

Ltac all_finite := vm_compute; repeat constructor; eexists; reflexivity.

(** The team's list, two users, in descending order of their amounts. *)
Lemma incentiveCalculations_sorted_descending_witness :
  Forall finite_amount Team.listed /\ StronglySorted amount_desc Team.listed.
Proof.
  assert (Hfin : Forall finite_amount Team.listed) by all_finite.
  split; [exact Hfin|].
  exact (proj2 (incentiveCalculations_sorted_descending
                  Team.boss [] Team.accounts Team.sales Team.rules) Hfin).
Defined.

(** The team's list, shown by revenue in ascending order. *)
Lemma displayed_list_filtered_and_sorted_witness :
  Forall (finite_key SortBy.revenue) Team.listed
  /\ StronglySorted (display_order SortBy.revenue SortOrder.asc)
       (filteredAndSortedCalculations FilterBy.earning SortBy.revenue
                                      SortOrder.asc Team.listed).
Proof.
  assert (Hfin : Forall (finite_key SortBy.revenue) Team.listed)
    by all_finite.
  split; [exact Hfin|].
  exact (proj1 (proj2 (displayed_list_filtered_and_sorted
                         FilterBy.earning SortBy.revenue SortOrder.asc
                         Team.listed) Hfin)).
Defined.

(** * The calculation in binary64 *)

(** ** Comparisons of binary64 numbers *)

Module FloatOrderFacts.

Import FloatOrder.
Local Open Scope Z_scope.






Local Open Scope float_scope.







End FloatOrderFacts.

Module B64Facts.

Import B64 FloatOrder FloatOrderFacts.
Local Open Scope float_scope.

(** ** Shape of the binary64 result *)

Lemma b64_null
    (currentUser : User) (allUsers : list User) (userId : string)
    (userAccounts : list Account) (allSalesData : list SalesData)
    (rules : list IncentiveRule) :
  userAccounts = [] \/ filter is_active rules = [] ->
  calculateUserIncentive currentUser allUsers userId userAccounts
                         allSalesData rules = None.
Proof.
  unfold calculateUserIncentive. intros [H|H].
  - rewrite H. reflexivity.
  - rewrite H. simpl. destruct (Nat.eqb _ 0); reflexivity.
Qed.

Lemma b64_unfold
    (currentUser : User) (allUsers : list User) (userId : string)
    (userAccounts : list Account) (allSalesData : list SalesData)
    (rules : list IncentiveRule) :
  userAccounts <> [] -> filter is_active rules <> [] ->
  calculateUserIncentive currentUser allUsers userId userAccounts
                         allSalesData rules
  = Some (resultOf currentUser allUsers userId userAccounts allSalesData
                   rules).
Proof.
  intros Ha Hr. unfold calculateUserIncentive, resultOf.
  destruct (Nat.eqb (List.length userAccounts) 0) eqn:E1.
  { apply length_zero_iff_nil in E1. contradiction. }
  destruct (Nat.eqb (List.length (filter is_active rules)) 0) eqn:E2.
  { apply length_zero_iff_nil in E2. contradiction. }
  cbv zeta. destruct (findBestRule _ _) as [bestRule|]; [|reflexivity].
  destruct (progressOf _ _ _) as [p m]. reflexivity.
Qed.

Lemma b64_some
    (currentUser : User) (allUsers : list User) (userId : string)
    (userAccounts : list Account) (allSalesData : list SalesData)
    (rules : list IncentiveRule) (calc : IncentiveCalculation) :
  calculateUserIncentive currentUser allUsers userId userAccounts
                         allSalesData rules = Some calc ->
  userAccounts <> [] /\ filter is_active rules <> []
  /\ calc = resultOf currentUser allUsers userId userAccounts allSalesData
                     rules.
Proof.
  intros H.
  assert (Ha : userAccounts <> [])
    by (intros E; rewrite b64_null in H by auto; discriminate H).
  assert (Hr : filter is_active rules <> [])
    by (intros E; rewrite b64_null in H by auto; discriminate H).
  rewrite b64_unfold in H by assumption. injection H as <-. auto.
Qed.


(** ** The commission rate *)

(** C8 (as amended): the commission rate is the total commission over the
    total revenue times 100, in binary64, when the total revenue is greater
    than 0, and 0 otherwise, so when the total revenue is 0; the divisor of
    the division made is never a zero.  Nothing is said of finiteness: the
    rate is not a number when both sums overflow. *)
Theorem b64_commission_rate_guarded
    (currentUser : User) (allUsers : list User) (userId : string)
    (userAccounts : list Account) (allSalesData : list SalesData)
    (rules : list IncentiveRule) (calc : IncentiveCalculation) :
  calculateUserIncentive currentUser allUsers userId userAccounts
                         allSalesData rules = Some calc ->
  let rows := userSalesDataOf userAccounts allSalesData in
  let revenue := total_revenue calc in
  let commission := total_commission calc in
  revenue = sumOf total_purchases rows
  /\ commission = sumOf gross_commission rows
  /\ ((0 <? revenue) = true ->
      commission_rate calc = commission / revenue * 100
      /\ revenue <> 0 /\ revenue <> -0)
  /\ ((0 <? revenue) = false -> commission_rate calc = 0)
  /\ (revenue = 0 \/ revenue = -0 -> commission_rate calc = 0).
Proof.
  intros H rows revenue commission. apply b64_some in H.
  destruct H as (_ & _ & H).
  assert (Hf : revenue = sumOf total_purchases rows
               /\ commission = sumOf gross_commission rows
               /\ commission_rate calc = commissionRateOf revenue commission).
  { unfold revenue, commission. subst calc. unfold resultOf. cbv zeta.
    destruct (findBestRule _ _); repeat split; reflexivity. }
  destruct Hf as (Hr & Hc & Hrate).
  split; [exact Hr|]. split; [exact Hc|].
  rewrite Hrate. unfold commissionRateOf. split; [|split].
  - intros Hpos. rewrite Hpos. split; [reflexivity|].
    split; intros E; rewrite E in Hpos; discriminate Hpos.
  - intros Hneg. rewrite Hneg. reflexivity.
  - intros [E|E]; rewrite E; reflexivity.
Qed.

(** ** Bounds of progress and remaining amount *)




(** ** Progress toward the next tier *)


(** ** Qualifying accounts *)










(** ** The amount inside a band *)








(** ** Rows and rules without influence *)




(** ** Runs *)

Ltac by_run := vm_compute; reflexivity.


(** One row of revenue 1000 and commission 70: the rate is the binary64
    value of [70 / 1000 * 100]. *)
Lemma b64_commission_rate_guarded_witness :
  exists calc,
    run [mkSalesData "a1" 1000 70] [twoTiers] = Some calc
    /\ total_revenue calc = 1000 /\ total_commission calc = 70
    /\ commission_rate calc = 70 / 1000 * 100
    /\ (commission_rate calc =? 7) = false.
Proof.
  assert (H : run [mkSalesData "a1" 1000 70] [twoTiers]
              = Some (resultOf Runs.ann [] "u1" Runs.accounts
                               [mkSalesData "a1" 1000 70] [twoTiers]))
    by by_run.
  eexists. split; [exact H|].
  destruct (b64_commission_rate_guarded _ _ _ _ _ _ _ H)
    as (Hr & Hc & Hpos & _).
  assert (Hr' : total_revenue
                  (resultOf Runs.ann [] "u1" Runs.accounts
                            [mkSalesData "a1" 1000 70] [twoTiers]) = 1000)
    by (rewrite Hr; by_run).
  assert (Hc' : total_commission
                  (resultOf Runs.ann [] "u1" Runs.accounts
                            [mkSalesData "a1" 1000 70] [twoTiers]) = 70)
    by (rewrite Hc; by_run).
  split; [exact Hr'|]. split; [exact Hc'|].
  assert (Hrate : commission_rate
                    (resultOf Runs.ann [] "u1" Runs.accounts
                              [mkSalesData "a1" 1000 70] [twoTiers])
                  = 70 / 1000 * 100).
  { destruct Hpos as (Hrate & _); [rewrite Hr'; reflexivity|].
    rewrite Hrate, Hr', Hc'. reflexivity. }
  split; [exact Hrate|]. rewrite Hrate. by_run.
Defined.





(** *** Inputs on which a statement of the specification fails *)



(** C8, as stated.  Two rows of revenue and commission [huge], the largest
    number: both sums overflow to infinity, the revenue is above 0, and the
    rate [Infinity / Infinity * 100] is not a number. *)
Lemma b64_commission_rate_not_finite :
  exists calc,
    run [mkSalesData "a1" huge huge; mkSalesData "a1" huge huge] [twoTiers]
    = Some calc
    /\ total_revenue calc = infinity
    /\ (0 <? total_revenue calc) = true
    /\ is_nan (commission_rate calc) = true
    /\ is_finite (commission_rate calc) = false.
Proof.
  eexists. split; [by_run|]. repeat split; by_run.
Qed.


End B64Facts.
